(** * Study planner: the Planner engine of [study_planner.py]

    A shallow embedding of the [Task] record model and the [Planner]
    engine (task CRUD, the completion workflow with XP, levels and
    achievements, listing and search, and the JSON persistence of
    [save]/[load]).

    Modelling choices:
    - Python dicts keep insertion order, so [self.tasks] and
      [self.completed] are association lists [list (Z * Task)] with the
      operations of a Python dict written out ([dict_set] updates in
      place or appends, [dict_pop] removes).
    - [self.achievements] is a Python set of strings: a [gset string].
    - Strings are Stdlib strings of ASCII characters; [str.lower] is
      ASCII lower-casing.
    - [datetime.datetime.now().isoformat()] is an explicit argument [now].
    - Writing [data.json] always succeeds: the storage is the last JSON
      value written ([FJson]), absent ([FMissing]) or unreadable /
      unparsable ([FBroken]). *)

From Stdlib Require Import ZArith Lia Sorting.Sorted Sorting.Permutation.
From Stdlib Require Import Strings.String Strings.Ascii.
From stdpp Require Import base list gmap sets strings.

Open Scope Z_scope.

(** ** Python dicts keyed by ints, in insertion order *)

Abbreviation dict V := (list (Z * V)).

Fixpoint dict_get {V} (k : Z) (d : dict V) : option V :=
  match d with
  | [] => None
  | (k', v) :: d' => if Z.eq_dec k k' then Some v else dict_get k d'
  end.

Definition dict_mem {V} (k : Z) (d : dict V) : bool :=
  match dict_get k d with Some _ => true | None => false end.

(** [d[k] = v]: an existing key keeps its position, a new key is appended. *)
Fixpoint dict_set {V} (k : Z) (v : V) (d : dict V) : dict V :=
  match d with
  | [] => [(k, v)]
  | (k', v') :: d' =>
      if Z.eq_dec k k' then (k, v) :: d' else (k', v') :: dict_set k v d'
  end.

(** [d.pop(k)] on a present key: the entry is removed. *)
Fixpoint dict_pop {V} (k : Z) (d : dict V) : dict V :=
  match d with
  | [] => []
  | (k', v') :: d' => if Z.eq_dec k k' then d' else (k', v') :: dict_pop k d'
  end.

(** In-place mutation of the object stored under [k]. *)
Fixpoint dict_update {V} (k : Z) (f : V -> V) (d : dict V) : dict V :=
  match d with
  | [] => []
  | (k', v') :: d' =>
      if Z.eq_dec k k' then (k', f v') :: d' else (k', v') :: dict_update k f d'
  end.

Definition dict_keys {V} (d : dict V) : list Z := map fst d.

(** ** The task record model (class [Task]) *)

Record Task := mkTask {
  id : option Z;              (* None until assigned by the Planner *)
  title : string;
  category : string;
  due_date : option string;   (* 'YYYY-MM-DD' or None *)
  priority : Z;               (* int(priority): 1-high, 5-low *)
  notes : string;
  created_at : string;
  completed_at : option string
}.

(** [Task(title, category, due_date, priority, notes)], created at [now]. *)
Definition Task_new (now title category : string) (due : option string)
    (prio : Z) (notes : string) : Task :=
  mkTask None title category due prio notes now None.

Definition set_id (i : option Z) (t : Task) : Task :=
  mkTask i t.(title) t.(category) t.(due_date) t.(priority) t.(notes)
    t.(created_at) t.(completed_at).

Definition set_completed_at (c : option string) (t : Task) : Task :=
  mkTask t.(id) t.(title) t.(category) t.(due_date) t.(priority) t.(notes)
    t.(created_at) c.

(** ** The planner state (class [Planner]) *)

Record Planner := mkPlanner {
  tasks : dict Task;          (* pending tasks *)
  completed : dict Task;
  next_id : Z;
  xp : Z;
  level : Z;
  achievements : gset string
}.

Definition XP_PER_TASK : Z := 20.
Definition XP_TO_LEVEL : Z := 100.

(** The fields set by [_create_default_file] (and by [__init__]). *)
Definition default_planner : Planner := mkPlanner [] [] 1 0 1 ∅.

Definition with_tasks (ts : dict Task) (p : Planner) : Planner :=
  mkPlanner ts p.(completed) p.(next_id) p.(xp) p.(level) p.(achievements).

Definition with_completed (cs : dict Task) (p : Planner) : Planner :=
  mkPlanner p.(tasks) cs p.(next_id) p.(xp) p.(level) p.(achievements).

(** ** JSON values and the storage file [data.json]

    Numbers are integers only (the engine writes no floats). An object
    keeps its pairs as written; [json.load] turns it into a dict, see
    [json_dict]. *)

#[local] Set Warnings "-register-all".
Inductive json :=
| JNull
| JBool (b : bool)
| JInt (z : Z)
| JStr (s : string)
| JArr (l : list json)
| JObj (l : list (string * json)).

Inductive file :=
| FMissing                 (* os.path.exists(DATA_FILE) is False *)
| FBroken                  (* open/json.load raise *)
| FJson (j : json).        (* the file holds this JSON document *)

(** The process state: the planner object and the storage. *)
Record World := mkWorld { planner : Planner; storage : file }.

(** *** [str(int)]: decimal digits of an integer *)

Fixpoint N_digits_fuel (fuel : nat) (n : N) : list N :=
  match fuel with
  | O => [n]
  | S f => if N.ltb n 10 then [n] else N_digits_fuel f (n / 10) ++ [(n mod 10)%N]
  end.

Definition N_digits (n : N) : list N := N_digits_fuel (N.to_nat (N.size n)) n.

Definition digit_char (d : N) : ascii := ascii_of_N (48 + d).

Definition string_of_chars (l : list ascii) : string :=
  fold_right String EmptyString l.

Definition str_of_int (z : Z) : string :=
  match z with
  | Zneg p => String "-" (string_of_chars (map digit_char (N_digits (Npos p))))
  | _ => string_of_chars (map digit_char (N_digits (Z.to_N z)))
  end.

(** *** [int(s)] on a string (base 10) *)

Definition is_digit (c : ascii) : bool :=
  (48 <=? N_of_ascii c)%N && (N_of_ascii c <=? 57)%N.

Definition digit_val (c : ascii) : Z := Z.of_N (N_of_ascii c) - 48.

(** [str.strip]'s whitespace among ASCII characters: 9-13, 28-31 and space. *)
Definition is_py_space (c : ascii) : bool :=
  let n := N_of_ascii c in
  ((9 <=? n)%N && (n <=? 13)%N) || ((28 <=? n)%N && (n <=? 32)%N).

Fixpoint lstrip (s : string) : string :=
  match s with
  | EmptyString => EmptyString
  | String c s' => if is_py_space c then lstrip s' else s
  end.

Fixpoint rev_chars (s : string) (acc : string) : string :=
  match s with
  | EmptyString => acc
  | String c s' => rev_chars s' (String c acc)
  end.

Definition py_strip (s : string) : string :=
  rev_chars (lstrip (rev_chars (lstrip s) EmptyString)) EmptyString.

(** Digits, with single underscores allowed between two digits. *)
Fixpoint digits_val (acc : Z) (s : string) : option Z :=
  match s with
  | EmptyString => Some acc
  | String c s' =>
      if is_digit c then digits_val (acc * 10 + digit_val c) s'
      else if Ascii.eqb c "_" then
        match s' with
        | String c2 _ => if is_digit c2 then digits_val acc s' else None
        | EmptyString => None
        end
      else None
  end.

Definition int_body (s : string) : option Z :=
  match s with
  | String c _ => if is_digit c then digits_val 0 s else None
  | EmptyString => None
  end.

(** The whitespace [int()] skips around the number: among ASCII
    characters only 9-13 and space; 28-31, which [str.strip] removes,
    make [int()] raise. *)
Definition is_int_space (c : ascii) : bool :=
  let n := N_of_ascii c in
  ((9 <=? n)%N && (n <=? 13)%N) || (n =? 32)%N.

Fixpoint int_lstrip (s : string) : string :=
  match s with
  | EmptyString => EmptyString
  | String c s' => if is_int_space c then int_lstrip s' else s
  end.

Definition int_strip (s : string) : string :=
  rev_chars (int_lstrip (rev_chars (int_lstrip s) EmptyString)) EmptyString.

(** [int(s)]: None is the ValueError. *)
Definition py_int_of_str (s : string) : option Z :=
  match int_strip s with
  | String c r =>
      if Ascii.eqb c "-" then option_map Z.opp (int_body r)
      else if Ascii.eqb c "+" then int_body r
      else int_body (String c r)
  | EmptyString => None
  end.

(** *** [Task.to_dict] and [Planner.save] *)

Definition opt_str_json (o : option string) : json :=
  match o with Some s => JStr s | None => JNull end.

Definition task_to_json (t : Task) : json :=
  JObj [("id", match t.(id) with Some i => JInt i | None => JNull end);
        ("title", JStr t.(title));
        ("category", JStr t.(category));
        ("due_date", opt_str_json t.(due_date));
        ("priority", JInt t.(priority));
        ("notes", JStr t.(notes));
        ("created_at", JStr t.(created_at));
        ("completed_at", opt_str_json t.(completed_at))].

(** [{tid: task.to_dict() ...}]: [json.dump] writes the int keys as [str(tid)]. *)
Definition tasks_to_json (d : dict Task) : json :=
  JObj (map (fun '(k, t) => (str_of_int k, task_to_json t)) d).

(** [list(self.achievements)]: the set's elements, in the order of [elements]. *)
Definition save_json (p : Planner) : json :=
  JObj [("next_id", JInt p.(next_id));
        ("xp", JInt p.(xp));
        ("level", JInt p.(level));
        ("achievements", JArr (map JStr (elements p.(achievements))));
        ("tasks", tasks_to_json p.(tasks));
        ("completed", tasks_to_json p.(completed))].

(** [self.save()]: the file is overwritten with the current state. *)
Definition save (w : World) : World :=
  mkWorld w.(planner) (FJson (save_json w.(planner))).

(** [self._create_default_file()] *)
Definition create_default_file (w : World) : World :=
  save (mkWorld default_planner w.(storage)).

(** *** [json.load] and [Planner.load]

    Decoding an arbitrary JSON document has three outcomes: the Python
    code raises somewhere ([DRaise]: [load] then starts fresh), or it
    stores a value whose type the typed [Planner] of this model does not
    represent (say ["xp": "abc"], stored as is by Python: [DUntyped]),
    or it yields a typed planner ([DOk]). A raise anywhere wins over an
    untyped value anywhere, whatever the order. *)

Inductive dec (A : Type) := DOk (a : A) | DUntyped | DRaise.
Arguments DOk {A} a.
Arguments DUntyped {A}.
Arguments DRaise {A}.

Definition dmap {A B} (f : A -> B) (d : dec A) : dec B :=
  match d with DOk a => DOk (f a) | DUntyped => DUntyped | DRaise => DRaise end.

Definition dpair {A B} (d1 : dec A) (d2 : dec B) : dec (A * B) :=
  match d1, d2 with
  | DRaise, _ | _, DRaise => DRaise
  | DOk a, DOk b => DOk (a, b)
  | _, _ => DUntyped
  end.

Fixpoint dlist {A} (l : list (dec A)) : dec (list A) :=
  match l with
  | [] => DOk []
  | d :: l' => dmap (fun '(a, r) => a :: r) (dpair d (dlist l'))
  end.

(** A JSON object becomes a dict: a repeated key keeps its first position
    and its last value. *)
Fixpoint sdict_set (k : string) (v : json) (d : list (string * json))
    : list (string * json) :=
  match d with
  | [] => [(k, v)]
  | (k', v') :: d' =>
      if String.eqb k k' then (k, v) :: d' else (k', v') :: sdict_set k v d'
  end.

Definition json_dict (o : list (string * json)) : list (string * json) :=
  fold_left (fun acc '(k, v) => sdict_set k v acc) o [].

Fixpoint sdict_get (k : string) (d : list (string * json)) : option json :=
  match d with
  | [] => None
  | (k', v) :: d' => if String.eqb k k' then Some v else sdict_get k d'
  end.

(** [d.get(k, default)] *)
Definition dget (d : list (string * json)) (k : string) (dflt : json) : json :=
  match sdict_get k d with Some v => v | None => dflt end.

Definition dec_int (j : json) : dec Z :=
  match j with JInt z => DOk z | _ => DUntyped end.

Definition dec_str (j : json) : dec string :=
  match j with JStr s => DOk s | _ => DUntyped end.

Definition dec_opt_str (j : json) : dec (option string) :=
  match j with JNull => DOk None | JStr s => DOk (Some s) | _ => DUntyped end.

Definition dec_opt_int (j : json) : dec (option Z) :=
  match j with JNull => DOk None | JInt z => DOk (Some z) | _ => DUntyped end.

(** [int(x)] in the [Task] constructor. *)
Definition py_int (j : json) : dec Z :=
  match j with
  | JInt z => DOk z
  | JBool b => DOk (if b then 1 else 0)
  | JStr s => match py_int_of_str s with Some z => DOk z | None => DRaise end
  | _ => DRaise
  end.

(** [set(x)] for the achievements: a list of hashable values, the
    characters of a string, or the keys of a dict. *)
Definition dec_ach_elem (j : json) : dec string :=
  match j with
  | JStr s => DOk s
  | JArr _ | JObj _ => DRaise          (* unhashable *)
  | _ => DUntyped
  end.

Fixpoint string_chars (s : string) : list string :=
  match s with
  | EmptyString => []
  | String c s' => String c EmptyString :: string_chars s'
  end.

Definition dec_achievements (j : json) : dec (gset string) :=
  match j with
  | JArr l => dmap list_to_set (dlist (map dec_ach_elem l))
  | JStr s => DOk (list_to_set (string_chars s))
  | JObj o => DOk (list_to_set (map fst (json_dict o)))
  | _ => DRaise
  end.

Definition dbind {A B} (d : dec A) (f : A -> dec B) : dec B :=
  match d with DOk a => f a | DUntyped => DUntyped | DRaise => DRaise end.

(** [Task.from_dict(d)]; the raw [d.get("id")] is returned beside the
    task, whose [id] is fixed by [load] afterwards. The default
    [created_at] is the constructor's [now]. *)
Definition task_from_json (now : string) (j : json) : dec (json * Task) :=
  match j with
  | JObj o =>
      let d := json_dict o in
      match sdict_get "title" d with
      | None => DRaise                                  (* KeyError *)
      | Some jt =>
          dmap (fun '(ti, (ca, (du, (pr, (no, (cr, co)))))) =>
                  (dget d "id" JNull, mkTask None ti ca du pr no cr co))
            (dpair (dec_str jt)
            (dpair (dec_str (dget d "category" (JStr "General")))
            (dpair (dec_opt_str (dget d "due_date" JNull))
            (dpair (py_int (dget d "priority" (JInt 3)))
            (dpair (dec_str (dget d "notes" (JStr "")))
            (dpair (dec_str (dget d "created_at" (JStr now)))
                   (dec_opt_str (dget d "completed_at" JNull))))))))
      end
  | _ => DRaise                                         (* not subscriptable *)
  end.

Definition dec_key (k : string) : dec Z :=
  match py_int_of_str k with Some z => DOk z | None => DRaise end.

(** [{int(k): Task.from_dict(v) for k, v in data.get(...).items()}] *)
Definition tasks_from_json (now : string) (j : json) : dec (dict (json * Task)) :=
  match j with
  | JObj o =>
      dmap (fun l => fold_left (fun acc '(k, v) => dict_set k v acc) l [])
        (dlist (map (fun '(k, v) => dpair (dec_key k) (task_from_json now v))
                    (json_dict o)))
  | _ => DRaise                                         (* no .items() *)
  end.

(** [for tid, t in {**self.tasks, **self.completed}.items(): t.id = tid]:
    a pending task whose key is also a completed key is shadowed in the
    merged dict and keeps its raw [id]. *)
Definition restore_ids (ts cs : dict (json * Task)) : dec (dict Task * dict Task) :=
  dpair
    (dlist (map (fun '(k, (raw, t)) =>
                   if dict_mem k cs then dmap (fun i => (k, set_id i t)) (dec_opt_int raw)
                   else DOk (k, set_id (Some k) t)) ts))
    (DOk (map (fun '(k, (_, t)) => (k, set_id (Some k) t)) cs)).

(** The body of the [try] in [Planner.load], after [json.load]. *)
Definition decode_planner (now : string) (j : json) : dec Planner :=
  match j with
  | JObj o =>
      let d := json_dict o in
      dbind
        (dpair (dec_int (dget d "next_id" (JInt 1)))
        (dpair (dec_int (dget d "xp" (JInt 0)))
        (dpair (dec_int (dget d "level" (JInt 1)))
        (dpair (dec_achievements (dget d "achievements" (JArr [])))
        (dpair (tasks_from_json now (dget d "tasks" (JObj [])))
               (tasks_from_json now (dget d "completed" (JObj []))))))))
        (fun '(ni, (x, (lv, (ac, (ts, cs))))) =>
           dmap (fun '(ts', cs') => mkPlanner ts' cs' ni x lv ac) (restore_ids ts cs))
  | _ => DRaise                                         (* no .get *)
  end.

Definition read_json (f : file) : option json :=
  match f with FJson j => Some j | _ => None end.

(** [Planner.load]. [None]: the file decodes into values outside the
    typed model (see [dec]). *)
Definition load (now : string) (w : World) : option World :=
  let w0 := match w.(storage) with FMissing => create_default_file w | _ => w end in
  match read_json w0.(storage) with
  | None => Some (create_default_file w0)
  | Some data =>
      match decode_planner now data with
      | DOk p => Some (mkWorld p w0.(storage))
      | DRaise => Some (create_default_file w0)
      | DUntyped => None
      end
  end.

(** ** Engine operations *)

Definition with_planner (p : Planner) (w : World) : World := mkWorld p w.(storage).

(** [add_task]: returns the new id. *)
Definition add_task (now title category : string) (due : option string)
    (prio : Z) (notes : string) (w : World) : World * Z :=
  let p := w.(planner) in
  let t := set_id (Some p.(next_id)) (Task_new now title category due prio notes) in
  let p' := mkPlanner (dict_set p.(next_id) t p.(tasks)) p.(completed)
              (p.(next_id) + 1) p.(xp) p.(level) p.(achievements) in
  (save (with_planner p' w), p.(next_id)).

(** [get_task]: [self.tasks.get(i) or self.completed.get(i)] (a Task is truthy). *)
Definition get_task (i : Z) (p : Planner) : option Task :=
  match dict_get i p.(tasks) with
  | Some t => Some t
  | None => dict_get i p.(completed)
  end.

(** [delete_task]: saves in every case. *)
Definition delete_task (i : Z) (w : World) : World * option Task :=
  let p := w.(planner) in
  if dict_mem i p.(tasks) then
    (save (with_planner (with_tasks (dict_pop i p.(tasks)) p) w), dict_get i p.(tasks))
  else if dict_mem i p.(completed) then
    (save (with_planner (with_completed (dict_pop i p.(completed)) p) w),
     dict_get i p.(completed))
  else (save w, None).

(** [edit_task(task_id, **kwargs)]: one constructor per attribute of a
    Task, each carrying the keyword's value ([None] is Python's [None]);
    [KwOther] is a keyword that names no attribute ([hasattr] is False).
    Keywords naming methods or special attributes of the class are left
    out of the model. *)
Inductive kwarg :=
| KwId (v : option Z)
| KwTitle (v : option string)
| KwCategory (v : option string)
| KwDueDate (v : option string)
| KwPriority (v : option Z)
| KwNotes (v : option string)
| KwCreatedAt (v : option string)
| KwCompletedAt (v : option string)
| KwOther (name : string).

(** [if hasattr(t, k) and v is not None: setattr(t, k, v)] *)
Definition apply_kwarg (t : Task) (kw : kwarg) : Task :=
  let '(mkTask i ti ca du pr no cr co) := t in
  match kw with
  | KwId (Some v) => mkTask (Some v) ti ca du pr no cr co
  | KwTitle (Some v) => mkTask i v ca du pr no cr co
  | KwCategory (Some v) => mkTask i ti v du pr no cr co
  | KwDueDate (Some v) => mkTask i ti ca (Some v) pr no cr co
  | KwPriority (Some v) => mkTask i ti ca du v no cr co
  | KwNotes (Some v) => mkTask i ti ca du pr v cr co
  | KwCreatedAt (Some v) => mkTask i ti ca du pr no v co
  | KwCompletedAt (Some v) => mkTask i ti ca du pr no cr (Some v)
  | _ => t
  end.

Definition apply_kwargs (kws : list kwarg) (t : Task) : Task :=
  fold_left apply_kwarg kws t.

(** The task found by [get_task] is mutated in place, in the dict that
    holds it. *)
Definition edit_task (i : Z) (kws : list kwarg) (w : World) : World * bool :=
  let p := w.(planner) in
  match get_task i p with
  | None => (w, false)
  | Some _ =>
      if dict_mem i p.(tasks) then
        (save (with_planner (with_tasks (dict_update i (apply_kwargs kws) p.(tasks)) p) w), true)
      else
        (save (with_planner (with_completed (dict_update i (apply_kwargs kws) p.(completed)) p) w), true)
  end.

(** *** The completion workflow *)

Definition milestones : list (Z * string) :=
  [(1, "First Task Done"); (5, "Getting Serious");
   (10, "Study Machine"); (25, "Legendary Studier")].

Definition add_if (c : bool) (name : string) (a : gset string) : gset string :=
  if c && negb (bool_decide (name ∈ a)) then {[name]} ∪ a else a.

(** [_check_achievements_on_completion] *)
Definition check_achievements (p : Planner) : gset string :=
  let n := Z.of_nat (length p.(completed)) in
  let a1 := fold_left (fun a '(k, name) => add_if (n >=? k) name a)
              milestones p.(achievements) in
  let a2 := add_if (p.(level) >=? 2) "Level 2 Achieved" a1 in
  add_if (p.(level) >=? 5) "Level 5 Achieved" a2.

Definition with_achievements (a : gset string) (p : Planner) : Planner :=
  mkPlanner p.(tasks) p.(completed) p.(next_id) p.(xp) p.(level) a.

(** The two results of [complete_task]: [(False, msg)] or
    [(True, {"gained", "leveled_up", "prev_xp"})]. *)
Inductive complete_result :=
| CompleteFail (msg : string)
| CompleteOk (gained : Z) (leveled_up : bool) (prev_xp : Z).

Definition complete_task (now : string) (i : Z) (w : World) : World * complete_result :=
  let p := w.(planner) in
  match dict_get i p.(tasks) with
  | None => (w, CompleteFail "Task not found or already completed.")
  | Some t =>
      let t' := set_completed_at (Some now) t in
      let gained := XP_PER_TASK in
      let prev_xp := p.(xp) in
      let xp' := p.(xp) + gained in
      let '(lv, leveled_up) :=
        if xp' / XP_TO_LEVEL + 1 >? p.(level) then (xp' / XP_TO_LEVEL + 1, true)
        else (p.(level), false) in
      let p1 := mkPlanner (dict_pop i p.(tasks)) (dict_set i t' p.(completed))
                  p.(next_id) xp' lv p.(achievements) in
      let p2 := with_achievements (check_achievements p1) p1 in
      (save (with_planner p2 w), CompleteOk gained leveled_up prev_xp)
  end.

(** *** Queries *)

(** [str.lower] on ASCII. *)
Definition char_lower (c : ascii) : ascii :=
  let n := N_of_ascii c in
  if (65 <=? n)%N && (n <=? 90)%N then ascii_of_N (n + 32) else c.

Fixpoint lower (s : string) : string :=
  match s with
  | EmptyString => EmptyString
  | String c s' => String (char_lower c) (lower s')
  end.

Fixpoint prefixb (p s : string) : bool :=
  match p, s with
  | EmptyString, _ => true
  | String a p', String b s' => Ascii.eqb a b && prefixb p' s'
  | String _ _, EmptyString => false
  end.

(** [sub in s] *)
Fixpoint str_contains (sub s : string) : bool :=
  prefixb sub s ||
  match s with
  | EmptyString => false
  | String _ s' => str_contains sub s'
  end.

Definition search_match (k : string) (t : Task) : bool :=
  str_contains k (lower t.(title)) || str_contains k (lower t.(notes))
  || str_contains k (lower t.(category)).

Definition search_tasks (keyword : string) (p : Planner) : list (Z * Task) :=
  let k := lower keyword in
  List.filter (fun '(_, t) => search_match k t) p.(tasks)
  ++ List.filter (fun '(_, t) => search_match k t) p.(completed).

(** [sorted(...)] on strings: Python orders strings by code points, as
    [String.leb] does on ASCII; for distinct elements a sorted list is
    unique, computed here by insertion. *)
Fixpoint insert_str (x : string) (l : list string) : list string :=
  match l with
  | [] => [x]
  | y :: l' => if String.leb x y then x :: l else y :: insert_str x l'
  end.

Definition sort_strings (l : list string) : list string := fold_right insert_str [] l.

(** [stats_summary] *)
Record stats := mkStats {
  st_pending : Z; st_completed : Z; st_total : Z;
  st_xp : Z; st_level : Z; st_achievements : list string }.

Definition stats_summary (p : Planner) : stats :=
  mkStats (Z.of_nat (length p.(tasks))) (Z.of_nat (length p.(completed)))
    (Z.of_nat (length p.(tasks)) + Z.of_nat (length p.(completed)))
    p.(xp) p.(level) (sort_strings (elements p.(achievements))).

(** *** [view_tasks]

    [list.sort(key=...)] is a stable sort; a stable sort has one result,
    computed here by insertion. A [datetime] is naive or offset-aware,
    each with an integer ordering it (for an aware one, its UTC
    instant, which is what Python compares); [fromisoformat] returns
    [None] where Python's [datetime.fromisoformat] raises, and
    [datetime_max] is the naive [datetime.datetime.max]. *)

Inductive pydatetime := Naive (v : Z) | Aware (utc : Z).

Definition dt_val (d : pydatetime) : Z := match d with Naive v | Aware v => v end.

Definition is_aware (d : pydatetime) : bool := match d with Aware _ => true | Naive _ => false end.

Fixpoint insert_by {A} (key : A -> Z) (x : A) (l : list A) : list A :=
  match l with
  | [] => [x]
  | y :: l' => if key x <=? key y then x :: l else y :: insert_by key x l'
  end.

Definition sort_by_key {A} (key : A -> Z) (l : list A) : list A :=
  fold_right (insert_by key) [] l.

Section View.

Variable fromisoformat : string -> option pydatetime.
Variable datetime_max : Z.

(** [due_key]: [None] when [fromisoformat] raises. *)
Definition due_key (pair : Z * Task) : option pydatetime :=
  match (snd pair).(due_date) with
  | None | Some EmptyString => Some (Naive datetime_max)
  | Some d => fromisoformat d
  end.

(** All keys are computed before sorting; one raise aborts the sort. *)
Fixpoint decorate (l : list (Z * Task)) : option (list (pydatetime * (Z * Task))) :=
  match l with
  | [] => Some []
  | x :: l' =>
      match due_key x, decorate l' with
      | Some k, Some r => Some ((k, x) :: r)
      | _, _ => None
      end
  end.

(** [None]: the call raises. *)
Definition view_tasks (show_completed : bool) (sort_by : string) (p : Planner)
    : option (list (Z * Task)) :=
  let items := if show_completed then p.(completed) else p.(tasks) in
  match items with
  | [] => Some []
  | _ =>
      if String.eqb sort_by "priority" then
        Some (sort_by_key (fun x => (snd x).(priority)) items)
      else if String.eqb sort_by "due" then
        match decorate items with
        | Some ds =>
            (* [<] between an aware and a naive datetime raises TypeError;
               a comparison sort of a list holding both kinds compares
               one of each, or it could not tell the order of the two
               kinds apart. *)
            if existsb (fun x => is_aware (fst x)) ds
               && existsb (fun x => negb (is_aware (fst x))) ds
            then None
            else Some (map snd (sort_by_key (fun x => dt_val (fst x)) ds))
        | None => None
        end
      else Some (sort_by_key fst items)
  end.

(** [view_tasks(show_completed)]: the default [sort_by] is ["priority"]. *)
Definition view_tasks_default (show_completed : bool) (p : Planner)
    : option (list (Z * Task)) :=
  view_tasks show_completed "priority" p.

End View.

(** *** Sequences of engine operations *)

Inductive op :=
| OpAdd (now title category : string) (due : option string) (prio : Z) (notes : string)
| OpDelete (i : Z)
| OpEdit (i : Z) (kws : list kwarg)
| OpComplete (now : string) (i : Z)
| OpSearch (keyword : string)
| OpView (show_completed : bool) (sort_by : string)
| OpStats.

(** The world after one call; the queries return values and leave the
    world as it was. *)
Definition step (o : op) (w : World) : World :=
  match o with
  | OpAdd now ti ca du pr no => fst (add_task now ti ca du pr no w)
  | OpDelete i => fst (delete_task i w)
  | OpEdit i kws => fst (edit_task i kws w)
  | OpComplete now i => fst (complete_task now i w)
  | OpSearch _ | OpView _ _ | OpStats => w
  end.

Fixpoint run (w : World) (ops : list op) : World :=
  match ops with
  | [] => w
  | o :: ops' => run (step o w) ops'
  end.

(** The ids returned by the [add_task] calls of a run, in order. *)
Fixpoint added_ids (w : World) (ops : list op) : list Z :=
  match ops with
  | [] => []
  | OpAdd now ti ca du pr no :: ops' =>
      snd (add_task now ti ca du pr no w) :: added_ids (step (OpAdd now ti ca du pr no) w) ops'
  | o :: ops' => added_ids (step o w) ops'
  end.

(** A fresh process: [Planner()] on a missing [data.json]. *)
Definition fresh_world : World := create_default_file (mkWorld default_planner FMissing).

(** ** The console layer ([cmd_*], [prompt_*], [main_menu])

    Printing is not modelled. [input()] takes the next line of [cins]
    and raises [EOFError] when there is none; an exception leaves the
    world as the command had made it (its saves stay on disk).
    [RecursionError] is what Python raises when the retries of
    [prompt_date] and [prompt_priority], which call themselves again,
    reach its recursion limit. *)

Inductive pyexc := EOFError | ValueError | RecursionError.

Record console := mkConsole { cworld : World; cins : list string }.

Definition cmd (A : Type) : Type := console -> (A + pyexc) * console.

Definition cret {A} (a : A) : cmd A := fun c => (inl a, c).

Definition craise {A} (e : pyexc) : cmd A := fun c => (inr e, c).

Definition cbind {A B} (m : cmd A) (f : A -> cmd B) : cmd B :=
  fun c => match m c with
           | (inl a, c') => f a c'
           | (inr e, c') => (inr e, c')
           end.

Notation "'let*' x := m 'in' k" := (cbind m (fun x => k))
  (at level 200, x name, m at level 100, k at level 200, only parsing).

Definition input : cmd string :=
  fun c => match c.(cins) with
           | [] => (inr EOFError, c)
           | s :: r => (inl s, mkConsole c.(cworld) r)
           end.

Definition get_planner : cmd Planner := fun c => (inl c.(cworld).(planner), c).

(** A [Planner] method call. *)
Definition planner_call {A} (f : World -> World * A) : cmd A :=
  fun c => let '(w', a) := f c.(cworld) in (inl a, mkConsole w' c.(cins)).

(** [s or d] on strings. *)
Definition py_or (s d : string) : string := if String.eqb s "" then d else s.

Definition wait_enter : cmd unit := let* _ := input in cret tt.

(** [prompt_priority]: [int(input(...) or "3")], then the range check;
    on [ValueError] it calls itself again. [room] is how many lines the
    nested calls can check before the recursion limit: in the next
    call, [input()] still reads its line and the [int()] call raises
    [RecursionError] (measured with CPython 3.11 and the default limit
    of 1000: [room] is 995 for a call from a [main_menu] command). That
    [RecursionError] is not a [ValueError], so nothing catches it. *)
Fixpoint prompt_priority_in (room : nat) (ins : list string) : (Z + pyexc) * list string :=
  match ins with
  | [] => (inr EOFError, [])
  | s :: r =>
      match room with
      | O => (inr RecursionError, r)
      | S room' =>
          match py_int_of_str (py_or s "3") with
          | Some p => if (p <? 1) || (p >? 5) then prompt_priority_in room' r else (inl p, r)
          | None => prompt_priority_in room' r
          end
      end
  end.

Definition prompt_priority (room : nat) : cmd Z :=
  fun c => let '(res, r) := prompt_priority_in room c.(cins) in (res, mkConsole c.(cworld) r).

Section Console.

(** [date_ok s]: [datetime.date.fromisoformat(s)] returns normally. [now]
    is the value [datetime.now().isoformat()] gives during the session.
    [date_room] and [prio_room] are the [room] of [prompt_date] and
    [prompt_priority] when a command of [main_menu] calls them: how many
    lines their nested calls can check before the recursion limit. *)
Variable date_ok : string -> bool.
Variable now : string.
Variable date_room prio_room : nat.

(** [prompt_date]: a blank stripped line is [None], a line [date_ok]
    accepts is returned, any other calls [prompt_date] again. Once
    [room] lines have been checked, the next call's [input()] raises
    [RecursionError] before reading (measured with CPython 3.11: [room]
    is 996 for a call from a [main_menu] command); [except Exception]
    only guards the [fromisoformat] call, so it is not caught. *)
Fixpoint prompt_date_in (room : nat) (ins : list string) : (option string + pyexc) * list string :=
  match room with
  | O => (inr RecursionError, ins)
  | S room' =>
      match ins with
      | [] => (inr EOFError, [])
      | s0 :: r =>
          let s := py_strip s0 in
          if String.eqb s "" then (inl None, r)
          else if date_ok s then (inl (Some s), r)
          else prompt_date_in room' r
      end
  end.

Definition prompt_date : cmd (option string) :=
  fun c => let '(res, r) := prompt_date_in date_room c.(cins) in (res, mkConsole c.(cworld) r).

Definition cmd_add : cmd unit :=
  let* title0 := input in
  let title := py_strip title0 in
  if String.eqb title "" then wait_enter else
  let* category0 := input in
  let category := py_or (py_strip category0) "General" in
  let* due := prompt_date in
  let* priority := prompt_priority prio_room in
  let* notes0 := input in
  let* _ := planner_call (add_task now title category due priority (py_strip notes0)) in
  wait_enter.

Definition cmd_quick_add : cmd unit :=
  let* title0 := input in
  let title := py_strip title0 in
  if String.eqb title "" then wait_enter else
  let* _ := planner_call (add_task now title "General" None 3 "") in
  wait_enter.

(** [tid = int(input(...))] inside [try ... except ValueError]. *)
Definition read_id (k : Z -> cmd unit) : cmd unit :=
  let* s := input in
  match py_int_of_str s with
  | None => wait_enter
  | Some tid => k tid
  end.

Definition cmd_complete : cmd unit :=
  read_id (fun tid => let* _ := planner_call (complete_task now tid) in wait_enter).

Definition cmd_delete : cmd unit :=
  read_id (fun tid => let* _ := planner_call (delete_task tid) in wait_enter).

Definition cmd_edit : cmd unit :=
  read_id (fun tid =>
    let* p := get_planner in
    match get_task tid p with
    | None => wait_enter
    | Some t =>
        let* nt := input in
        let new_title := py_or (py_strip nt) t.(title) in
        let* nc := input in
        let new_category := py_or (py_strip nc) t.(category) in
        let* nd := prompt_date in
        let new_due := match nd with None => t.(due_date) | Some d => Some d end in
        let* np0 := input in
        let np := py_strip np0 in
        let* new_priority :=
          (if String.eqb np "" then cret t.(priority)
           else match py_int_of_str np with
                | Some z => cret z
                | None => craise ValueError           (* not caught *)
                end) in
        let* nn := input in
        let new_notes := py_or (py_strip nn) t.(notes) in
        let* _ := planner_call (edit_task tid
                [KwTitle (Some new_title); KwCategory (Some new_category);
                 KwDueDate new_due; KwPriority (Some new_priority);
                 KwNotes (Some new_notes)]) in
        wait_enter
    end).

(** The menus that only read and print. *)
Definition cmd_view : cmd unit := wait_enter.
Definition cmd_stats : cmd unit := wait_enter.

(** [cmd_export] writes [tasks_export.json], a file the world does not
    hold; its console part is the final [wait_enter]. *)
Definition cmd_export : cmd unit := wait_enter.

(** Both branches of [cmd_search] end in [wait_enter]. *)
Definition cmd_search : cmd unit :=
  let* q0 := input in
  if String.eqb (py_strip q0) "" then wait_enter else wait_enter.

(** The [while True] loop of [main_menu], for at most [fuel] rounds:
    [inl true] is the exit by ["0"] (after [planner.save()]), [inl false]
    that the rounds ran out. *)
Fixpoint menu_loop (fuel : nat) : cmd bool :=
  match fuel with
  | O => cret false
  | S f =>
      let* choice0 := input in
      let choice := py_strip choice0 in
      if String.eqb choice "0" then
        let* _ := planner_call (fun w => (save w, tt)) in cret true
      else
        let* _ := (if String.eqb choice "1" then cmd_add
               else if String.eqb choice "2" then cmd_quick_add
               else if String.eqb choice "3" then cmd_view
               else if String.eqb choice "4" then cmd_view
               else if String.eqb choice "5" then cmd_complete
               else if String.eqb choice "6" then cmd_edit
               else if String.eqb choice "7" then cmd_delete
               else if String.eqb choice "8" then cmd_stats
               else if String.eqb choice "9" then cmd_search
               else if String.eqb choice "10" then cmd_export
               else wait_enter) in
        menu_loop f
  end.

End Console.

(** A console command reads lines and never puts any back. *)
Definition shrinks {A} (m : cmd A) : Prop :=
  forall c, (length (snd (m c)).(cins) <= length c.(cins))%nat.

(** ** Notions used by the statements *)

(** [kw] occurs in [s] up to case: some slice of [s] lower-cases to
    what [kw] lower-cases to. *)
Definition ci_substring (kw s : string) : Prop :=
  exists pre mid suf, s = (pre ++ mid ++ suf)%string /\ lower mid = lower kw.

(** The eight attributes of a Task and their values, to speak of
    [edit_task]'s effect field by field. *)
Inductive field := FId | FTitle | FCategory | FDueDate | FPriority | FNotes
                 | FCreatedAt | FCompletedAt.

Definition field_eq_dec (f g : field) : {f = g} + {f <> g}.
Proof. decide equality. Defined.

Inductive fval :=
| VOptZ (o : option Z) | VStr (s : string) | VOptStr (o : option string) | VZ (z : Z).

Definition get_field (f : field) (t : Task) : fval :=
  match f with
  | FId => VOptZ t.(id)
  | FTitle => VStr t.(title)
  | FCategory => VStr t.(category)
  | FDueDate => VOptStr t.(due_date)
  | FPriority => VZ t.(priority)
  | FNotes => VStr t.(notes)
  | FCreatedAt => VStr t.(created_at)
  | FCompletedAt => VOptStr t.(completed_at)
  end.

(** The field a keyword argument assigns and the value it assigns, when
    its value is not None and it names an attribute. *)
Definition kw_sets (kw : kwarg) : option (field * fval) :=
  match kw with
  | KwId (Some v) => Some (FId, VOptZ (Some v))
  | KwTitle (Some v) => Some (FTitle, VStr v)
  | KwCategory (Some v) => Some (FCategory, VStr v)
  | KwDueDate (Some v) => Some (FDueDate, VOptStr (Some v))
  | KwPriority (Some v) => Some (FPriority, VZ v)
  | KwNotes (Some v) => Some (FNotes, VStr v)
  | KwCreatedAt (Some v) => Some (FCreatedAt, VStr v)
  | KwCompletedAt (Some v) => Some (FCompletedAt, VOptStr (Some v))
  | _ => None
  end.

(** [t'] is [t] with the updates [kws] applied: a field no update
    assigns keeps its value; a field takes the value of the last update
    that assigns it. *)
Definition updates_applied (kws : list kwarg) (t t' : Task) : Prop :=
  (forall f, (forall kw v, In kw kws -> kw_sets kw <> Some (f, v)) ->
             get_field f t' = get_field f t)
  /\ (forall f pre kw post v, kws = pre ++ kw :: post -> kw_sets kw = Some (f, v) ->
        (forall kw' v', In kw' post -> kw_sets kw' <> Some (f, v')) ->
        get_field f t' = v).

(** A listed pair has a due date: a non-empty one. *)
Definition has_due (x : Z * Task) : Prop :=
  exists d, (snd x).(due_date) = Some d /\ d <> EmptyString.

(** Ascending by date: the parsed due date of [a] is at most that of [b]. *)
Definition due_le (fromisoformat : string -> option pydatetime) (a b : Z * Task) : Prop :=
  forall da db va vb,
    (snd a).(due_date) = Some da -> (snd b).(due_date) = Some db ->
    fromisoformat da = Some va -> fromisoformat db = Some vb -> dt_val va <= dt_val vb.

(** Every non-empty due date among [items] parses to a naive datetime
    below [datetime.max]. *)
Definition dates_parse (fromisoformat : string -> option pydatetime) (datetime_max : Z)
    (items : list (Z * Task)) : Prop :=
  forall k t d, In (k, t) items -> t.(due_date) = Some d -> d <> EmptyString ->
    exists v, fromisoformat d = Some (Naive v) /\ v < datetime_max.

(** Well-formedness: dict keys are distinct, and no key is both
    pending and completed. *)
Definition planner_wf (p : Planner) : Prop :=
  NoDup (dict_keys p.(tasks)) /\ NoDup (dict_keys p.(completed))
  /\ Forall (fun k => k ∉ dict_keys p.(completed)) (dict_keys p.(tasks)).

#[global] Instance planner_wf_dec (p : Planner) : Decision (planner_wf p).
Proof. unfold planner_wf. apply _. Defined.

(** Every task's [id] attribute set to its key. *)
Definition reset_id_entries (d : dict Task) : dict Task :=
  map (fun '(k, t) => (k, set_id (Some k) t)) d.

Definition reset_ids (p : Planner) : Planner :=
  mkPlanner (reset_id_entries p.(tasks)) (reset_id_entries p.(completed))
    p.(next_id) p.(xp) p.(level) p.(achievements).

(** What every planner built by the program satisfies: well-formed
    dicts, keys below [next_id], and the level computed from the XP. *)
Definition planner_inv (p : Planner) : Prop :=
  planner_wf p
  /\ (forall k, In k (dict_keys p.(tasks) ++ dict_keys p.(completed)) -> k < p.(next_id))
  /\ 0 <= p.(xp) /\ p.(level) = p.(xp) / XP_TO_LEVEL + 1.

(** The worlds a program run can produce: [Planner()] on a missing or
    unreadable file, any call, and [Planner()] again on the file the
    program left (a restart). *)
Inductive reachable : World -> Prop :=
| reach_start (now : string) (st : file) (w : World) :
    st = FMissing \/ st = FBroken ->
    load now (mkWorld default_planner st) = Some w -> reachable w
| reach_step (o : op) (w : World) : reachable w -> reachable (step o w)
| reach_restart (now : string) (w w' : World) :
    reachable w -> load now (mkWorld default_planner w.(storage)) = Some w' ->
    reachable w'.

(** The largest number of completed tasks seen along a run. *)
Fixpoint peak_completed (w : World) (ops : list op) : Z :=
  match ops with
  | [] => Z.of_nat (length w.(planner).(completed))
  | o :: ops' =>
      Z.max (Z.of_nat (length w.(planner).(completed))) (peak_completed (step o w) ops')
  end.

Definition is_delete (o : op) : bool :=
  match o with OpDelete _ => true | _ => false end.

(** ** Lemmas on dicts *)

Section DictLemmas.
Context {V : Type}.
Implicit Types (d : dict V) (k : Z) (v : V).

Lemma dict_get_In k d v : dict_get k d = Some v -> In (k, v) d.
Proof.
  induction d as [|[k' v'] d IH]; simpl; [discriminate|].
  destruct (Z.eq_dec k k'); [intros [= <-]; subst; auto | auto].
Qed.

Lemma dict_get_None k d : dict_get k d = None <-> ~ In k (dict_keys d).
Proof.
  induction d as [|[k' v'] d IH]; simpl; [tauto|].
  destruct (Z.eq_dec k k'); [subst; split; [discriminate| tauto]|].
  rewrite IH. intuition.
Qed.

Lemma dict_mem_In k d : dict_mem k d = true <-> In k (dict_keys d).
Proof.
  unfold dict_mem. pose proof (dict_get_None k d) as H.
  destruct (dict_get k d) eqn:E.
  - split; [|reflexivity]. intros _.
    destruct (in_dec Z.eq_dec k (dict_keys d)) as [|n]; [assumption|].
    apply H in n. congruence.
  - split; [discriminate|]. intros Hin. exfalso. apply H; auto.
Qed.

Lemma dict_mem_false k d : dict_mem k d = false <-> ~ In k (dict_keys d).
Proof.
  rewrite <- dict_mem_In. destruct (dict_mem k d); intuition congruence.
Qed.

Lemma dict_get_set_eq k v d : dict_get k (dict_set k v d) = Some v.
Proof.
  induction d as [|[k' v'] d IH]; simpl.
  - destruct (Z.eq_dec k k); congruence.
  - destruct (Z.eq_dec k k'); simpl.
    + destruct (Z.eq_dec k k); congruence.
    + destruct (Z.eq_dec k k'); congruence.
Qed.

Lemma dict_get_set_ne k k' v d : k' <> k -> dict_get k' (dict_set k v d) = dict_get k' d.
Proof.
  intros Hne. induction d as [|[k'' v'] d IH]; simpl.
  - destruct (Z.eq_dec k' k); congruence.
  - destruct (Z.eq_dec k k''); simpl.
    + subst. destruct (Z.eq_dec k' k''); congruence.
    + destruct (Z.eq_dec k' k''); congruence.
Qed.

Lemma keys_dict_set_in k v d :
  In k (dict_keys d) -> dict_keys (dict_set k v d) = dict_keys d.
Proof.
  induction d as [|[k' v'] d IH]; simpl; [tauto|].
  destruct (Z.eq_dec k k'); simpl; [subst; reflexivity|].
  intros [->|H]; [congruence|]. rewrite IH; auto.
Qed.

Lemma keys_dict_set_notin k v d :
  ~ In k (dict_keys d) -> dict_keys (dict_set k v d) = dict_keys d ++ [k].
Proof.
  induction d as [|[k' v'] d IH]; simpl; [reflexivity|].
  destruct (Z.eq_dec k k'); simpl; [subst; tauto|].
  intros H. rewrite IH; auto.
Qed.

Lemma dict_set_notin k v d :
  ~ In k (dict_keys d) -> dict_set k v d = d ++ [(k, v)].
Proof.
  induction d as [|[k' v'] d IH]; simpl; [reflexivity|].
  destruct (Z.eq_dec k k'); simpl; [subst; tauto|].
  intros H. rewrite IH; auto.
Qed.

Lemma In_keys_dict_set k k' v d :
  In k' (dict_keys (dict_set k v d)) <-> k' = k \/ In k' (dict_keys d).
Proof.
  destruct (in_dec Z.eq_dec k (dict_keys d)).
  - rewrite keys_dict_set_in by assumption. intuition congruence.
  - rewrite keys_dict_set_notin by assumption. rewrite in_app_iff. simpl. intuition.
Qed.

Lemma NoDup_dict_set k v d :
  NoDup (dict_keys d) -> NoDup (dict_keys (dict_set k v d)).
Proof.
  intros Hnd. destruct (in_dec Z.eq_dec k (dict_keys d)).
  - rewrite keys_dict_set_in; auto.
  - rewrite keys_dict_set_notin by assumption.
    apply NoDup_app. split_and!; [assumption| |apply NoDup_singleton].
    intros x Hx Hy. apply list_elem_of_singleton in Hy. subst.
    apply list_elem_of_In in Hx. contradiction.
Qed.

Lemma keys_dict_pop k d :
  NoDup (dict_keys d) -> forall k', In k' (dict_keys (dict_pop k d)) <-> In k' (dict_keys d) /\ k' <> k.
Proof.
  induction d as [|[k0 v0] d IH]; simpl; [tauto|].
  intros Hnd k'. inversion Hnd as [|? ? Hni Hnd']; subst.
  destruct (Z.eq_dec k k0); simpl.
  - subst k0. split.
    + intros H. split; [right; exact H|]. intros Heq. subst k'. apply Hni, list_elem_of_In. exact H.
    + intros [[Heq|H] Hne]; [congruence|exact H].
  - rewrite IH by assumption. intuition congruence.
Qed.

Lemma keys_dict_pop_sub k d k' :
  In k' (dict_keys (dict_pop k d)) -> In k' (dict_keys d).
Proof.
  induction d as [|[k0 v0] d IH]; simpl; [tauto|].
  destruct (Z.eq_dec k k0); simpl; tauto.
Qed.

Lemma NoDup_dict_pop k d : NoDup (dict_keys d) -> NoDup (dict_keys (dict_pop k d)).
Proof.
  induction d as [|[k0 v0] d IH]; simpl; [auto|].
  intros Hnd. inversion Hnd as [|? ? Hni Hnd']; subst.
  destruct (Z.eq_dec k k0); simpl; [assumption|].
  constructor; [|auto]. intros Hin%list_elem_of_In. apply Hni, list_elem_of_In.
  eapply keys_dict_pop_sub; eauto.
Qed.

Lemma length_dict_pop_in k d :
  In k (dict_keys d) -> length (dict_pop k d) = pred (length d).
Proof.
  induction d as [|[k0 v0] d IH]; simpl; [tauto|].
  destruct (Z.eq_dec k k0); simpl; [reflexivity|].
  intros [->|H]; [congruence|]. rewrite IH by assumption.
  destruct d; simpl in *; [tauto|reflexivity].
Qed.

Lemma length_dict_pop_le k d : (length (dict_pop k d) <= length d)%nat.
Proof.
  induction d as [|[k0 v0] d IH]; simpl; [lia|].
  destruct (Z.eq_dec k k0); simpl; lia.
Qed.

Lemma length_dict_set k v d :
  length (dict_set k v d) = if in_dec Z.eq_dec k (dict_keys d) then length d else S (length d).
Proof.
  destruct (in_dec Z.eq_dec k (dict_keys d)) as [H|H].
  - rewrite <- !(length_map fst). unfold dict_keys in *.
    change (map fst (dict_set k v d)) with (dict_keys (dict_set k v d)).
    rewrite keys_dict_set_in; auto.
  - rewrite dict_set_notin by assumption. rewrite length_app. simpl. lia.
Qed.

Lemma keys_dict_update k f d : dict_keys (dict_update k f d) = dict_keys d.
Proof.
  induction d as [|[k0 v0] d IH]; simpl; [reflexivity|].
  destruct (Z.eq_dec k k0); simpl; congruence.
Qed.

Lemma dict_get_pop_eq k d : NoDup (dict_keys d) -> dict_get k (dict_pop k d) = None.
Proof.
  intros Hnd. apply dict_get_None. rewrite keys_dict_pop by assumption. tauto.
Qed.

(** Building a dict from pairs with distinct keys gives back the pairs. *)
Lemma fold_dict_set_app (l acc : dict V) :
  NoDup (dict_keys (acc ++ l)) ->
  fold_left (fun a '(k, v) => dict_set k v a) l acc = acc ++ l.
Proof.
  revert acc. induction l as [|[k v] l IH]; intros acc Hnd; simpl.
  - rewrite app_nil_r. reflexivity.
  - rewrite dict_set_notin.
    + rewrite IH; [rewrite <- app_assoc; reflexivity|].
      rewrite <- app_assoc. exact Hnd.
    + intros Hin. unfold dict_keys in Hnd. rewrite map_app in Hnd. simpl in Hnd.
      apply NoDup_app in Hnd as (_ & Hd & _).
      apply (Hd k); [apply list_elem_of_In; exact Hin|left].
Qed.

Lemma fold_dict_set_nodup (l : dict V) :
  NoDup (dict_keys l) -> fold_left (fun a '(k, v) => dict_set k v a) l [] = l.
Proof. intros. apply (fold_dict_set_app l []). assumption. Qed.

End DictLemmas.

(** ** Completion: failure, XP and level *)

Lemma complete_task_fail_iff now i w :
  dict_mem i w.(planner).(tasks) = false ->
  complete_task now i w = (w, CompleteFail "Task not found or already completed.").
Proof.
  unfold complete_task, dict_mem. destruct (dict_get i _); [discriminate|reflexivity].
Qed.

Lemma complete_level now i w :
  (fst (complete_task now i w)).(planner).(level) =
  if dict_mem i w.(planner).(tasks)
  then Z.max w.(planner).(level) ((w.(planner).(xp) + XP_PER_TASK) / XP_TO_LEVEL + 1)
  else w.(planner).(level).
Proof.
  unfold complete_task, dict_mem.
  destruct (dict_get i _) as [t|]; [|reflexivity]. simpl.
  destruct (_ >? _) eqn:E; simpl.
  - apply Z.gtb_lt in E. lia.
  - rewrite Z.gtb_ltb, Z.ltb_ge in E. lia.
Qed.

Lemma step_level o w : w.(planner).(level) <= (step o w).(planner).(level).
Proof.
  destruct o; simpl; try lia.
  - unfold delete_task. repeat case_match; simpl; lia.
  - unfold edit_task. repeat case_match; simpl; lia.
  - rewrite complete_level. case_match; lia.
Qed.

Lemma step_next_id o w : w.(planner).(next_id) <= (step o w).(planner).(next_id).
Proof.
  destruct o; simpl; try lia.
  - unfold delete_task. repeat case_match; simpl; lia.
  - unfold edit_task. repeat case_match; simpl; lia.
  - unfold complete_task. destruct (dict_get i _); simpl; [|lia].
    destruct (_ >? _); simpl; lia.
Qed.

Lemma run_next_id ops w : w.(planner).(next_id) <= (run w ops).(planner).(next_id).
Proof.
  revert w. induction ops as [|o ops IH]; intros w; simpl; [lia|].
  specialize (IH (step o w)). pose proof (step_next_id o w). lia.
Qed.

Lemma added_ids_ge ops w :
  Forall (fun i => w.(planner).(next_id) <= i) (added_ids w ops).
Proof.
  revert w. induction ops as [|o ops IH]; intros w; simpl; [constructor|].
  assert (Hs := step_next_id o w).
  destruct o; simpl in *;
    try (eapply Forall_impl; [apply IH|]; intros; simpl in *; lia).
  constructor; [lia|]. eapply Forall_impl; [apply IH|]. intros x Hx. simpl in Hx. lia.
Qed.

(** C3: the ids returned by the [add_task] calls of any sequence of
    engine operations (adds, deletes, edits, completions, queries) are
    strictly increasing, so no id is returned twice, and [next_id] never
    decreases, deletions included. *)
Theorem add_ids_strictly_increasing (ops : list op) (w : World) :
  StronglySorted Z.lt (added_ids w ops)
  /\ (forall o w', w'.(planner).(next_id) <= (step o w').(planner).(next_id))
  /\ w.(planner).(next_id) <= (run w ops).(planner).(next_id).
Proof.
  split_and!; [|apply step_next_id|apply run_next_id].
  revert w. induction ops as [|o ops IH]; intros w; simpl; [constructor|].
  destruct o; try apply IH.
  constructor; [apply IH|].
  eapply Forall_impl; [apply added_ids_ge|]. intros x Hx. simpl in Hx. lia.
Qed.

(** C2: [complete_task] on an id that is not pending (unknown, or
    already completed) fails with "Task not found or already completed."
    and changes nothing: xp, level, both collections and the storage are
    as before. *)
Theorem complete_task_not_pending (now : string) (i : Z) (w : World)
    (Hnot : dict_mem i w.(planner).(tasks) = false) :
  complete_task now i w = (w, CompleteFail "Task not found or already completed.").
Proof. apply complete_task_fail_iff. exact Hnot. Qed.

Lemma complete_task_not_pending_witness :
  dict_mem 1 (run fresh_world [OpAdd "t0" "Read Ch.1" "General" None 3 "";
                               OpComplete "t1" 1]).(planner).(tasks) = false
  /\ complete_task "t2" 1 (run fresh_world [OpAdd "t0" "Read Ch.1" "General" None 3 "";
                                          OpComplete "t1" 1])
     = (run fresh_world [OpAdd "t0" "Read Ch.1" "General" None 3 ""; OpComplete "t1" 1],
        CompleteFail "Task not found or already completed.").
Proof.
  split; [reflexivity|]. apply complete_task_not_pending. reflexivity.
Defined.

(** C10: no engine operation (add, edit, delete, complete, search, list,
    stats) lowers the stored level, and [complete_task] sets it to the
    larger of the stored level and the level recomputed from the new xp,
    that is, it changes it only when the recomputed level is strictly
    greater. *)
Theorem level_never_decreases :
  (forall (o : op) (w : World), w.(planner).(level) <= (step o w).(planner).(level))
  /\ (forall (now : string) (i : Z) (w : World),
        (fst (complete_task now i w)).(planner).(level) =
        if dict_mem i w.(planner).(tasks)
        then Z.max w.(planner).(level) ((w.(planner).(xp) + XP_PER_TASK) / XP_TO_LEVEL + 1)
        else w.(planner).(level)).
Proof. split; [apply step_level|apply complete_level]. Qed.

(** ** Search *)

Lemma prefixb_spec (p s : string) :
  prefixb p s = true <-> exists suf, s = (p ++ suf)%string.
Proof.
  revert s. induction p as [|a p IH]; intros s; simpl.
  - split; [intros _; exists s; reflexivity|reflexivity].
  - destruct s as [|b s].
    + split; [discriminate|intros [suf H]; discriminate].
    + rewrite andb_true_iff, Ascii.eqb_eq, IH. split.
      * intros [-> [suf ->]]. exists suf. reflexivity.
      * intros [suf [= -> ->]]. eauto.
Qed.

Lemma str_contains_spec (sub s : string) :
  str_contains sub s = true <-> exists pre suf, s = (pre ++ sub ++ suf)%string.
Proof.
  induction s as [|c s IH]; simpl.
  - rewrite orb_false_r, prefixb_spec. split.
    + intros [suf H]. exists EmptyString, suf. exact H.
    + intros [pre [suf H]]. destruct pre; [|discriminate]. exists suf. exact H.
  - rewrite orb_true_iff, prefixb_spec, IH. split.
    + intros [[suf H]|[pre [suf H]]].
      * exists EmptyString, suf. exact H.
      * exists (String c pre), suf. rewrite H. reflexivity.
    + intros [pre [suf H]]. destruct pre as [|c' pre].
      * left. exists suf. exact H.
      * right. injection H as -> ->. eauto.
Qed.

Lemma append_cons (c : ascii) (a b : string) :
  (String c a ++ b)%string = String c (a ++ b)%string.
Proof. reflexivity. Qed.

Lemma lower_app (a b : string) : lower (a ++ b)%string = (lower a ++ lower b)%string.
Proof.
  induction a as [|c a IH]; [reflexivity|].
  rewrite append_cons. simpl. rewrite IH. reflexivity.
Qed.

Lemma lower_split (s A B : string) :
  lower s = (A ++ B)%string ->
  exists a b, s = (a ++ b)%string /\ lower a = A /\ lower b = B.
Proof.
  revert s. induction A as [|c A IH]; intros s H; simpl in *.
  - exists EmptyString, s. auto.
  - destruct s as [|c' s]; simpl in H; [discriminate|].
    injection H as Hc H. destruct (IH s H) as (a & b & -> & Ha & Hb).
    exists (String c' a), b. simpl. rewrite Hc, Ha. auto.
Qed.

Lemma contains_lower_iff (kw s : string) :
  str_contains (lower kw) (lower s) = true <-> ci_substring kw s.
Proof.
  rewrite str_contains_spec. split.
  - intros (P & S & H).
    destruct (lower_split s P (lower kw ++ S) H) as (a & r & -> & Ha & Hr).
    destruct (lower_split r (lower kw) S Hr) as (m & b & -> & Hm & Hb).
    exists a, m, b. auto.
  - intros (pre & mid & suf & -> & Hm).
    exists (lower pre), (lower suf). rewrite !lower_app, Hm. reflexivity.
Qed.

(** C9: [search_tasks keyword] returns exactly the (id, task) pairs of
    the pending and of the completed collection whose title, notes or
    category contains [keyword] as a case-insensitive substring. *)
Theorem search_tasks_exact (keyword : string) (p : Planner) (k : Z) (t : Task) :
  In (k, t) (search_tasks keyword p) <->
  (In (k, t) p.(tasks) \/ In (k, t) p.(completed)) /\
  (ci_substring keyword t.(title) \/ ci_substring keyword t.(notes)
   \/ ci_substring keyword t.(category)).
Proof.
  unfold search_tasks, search_match.
  rewrite in_app_iff, !filter_In, !orb_true_iff, !contains_lower_iff. tauto.
Qed.

(** ** Editing *)

Lemma dict_get_update_eq {V} (k : Z) (f : V -> V) (d : dict V) :
  dict_get k (dict_update k f d) = option_map f (dict_get k d).
Proof.
  induction d as [|[k0 v0] d IH]; simpl; [reflexivity|].
  destruct (Z.eq_dec k k0); simpl; destruct (Z.eq_dec k k0); congruence.
Qed.

Lemma dict_get_update_ne {V} (k j : Z) (f : V -> V) (d : dict V) :
  j <> k -> dict_get j (dict_update k f d) = dict_get j d.
Proof.
  intros Hne. induction d as [|[k0 v0] d IH]; simpl; [reflexivity|].
  destruct (Z.eq_dec k k0); simpl; destruct (Z.eq_dec j k0); congruence.
Qed.

Lemma get_field_apply_kwarg (f : field) (t : Task) (kw : kwarg) :
  get_field f (apply_kwarg t kw) =
  match kw_sets kw with
  | Some (g, v) => if field_eq_dec f g then v else get_field f t
  | None => get_field f t
  end.
Proof.
  destruct t; destruct kw as [[]|[]|[]|[]|[]|[]|[]|[]|]; destruct f; reflexivity.
Qed.

Lemma apply_kwargs_untouched (f : field) (l : list kwarg) (t : Task) :
  (forall kw v, In kw l -> kw_sets kw <> Some (f, v)) ->
  get_field f (apply_kwargs l t) = get_field f t.
Proof.
  unfold apply_kwargs. revert t. induction l as [|kw l IH]; intros t H; simpl; [reflexivity|].
  rewrite IH by (intros; apply H; simpl; auto).
  rewrite get_field_apply_kwarg.
  destruct (kw_sets kw) as [[g v]|] eqn:E; [|reflexivity].
  destruct (field_eq_dec f g); [|reflexivity]. subst g.
  exfalso. apply (H kw v); simpl; auto.
Qed.

Lemma apply_kwargs_updates_applied (kws : list kwarg) (t : Task) :
  updates_applied kws t (apply_kwargs kws t).
Proof.
  split.
  - intros f H. apply apply_kwargs_untouched. exact H.
  - intros f pre kw post v -> Hkw Hpost.
    unfold apply_kwargs. rewrite fold_left_app. simpl.
    change (get_field f (apply_kwargs post (apply_kwarg (apply_kwargs pre t) kw)) = v).
    rewrite apply_kwargs_untouched by exact Hpost.
    rewrite get_field_apply_kwarg, Hkw.
    destruct (field_eq_dec f f); congruence.
Qed.

(** C4 (as amended): [edit_task i kws] returns True exactly when [i] is
    a key of either collection, and otherwise changes nothing. On the
    found task, each keyword whose value is not None and that names a
    Task attribute is applied (id, created_at and completed_at included,
    not only title, category, due_date, priority and notes), the last
    such keyword of a field winning; the other fields keep their values,
    and no other task, no key and no counter changes. *)
Theorem edit_task_fields (i : Z) (kws : list kwarg) (w : World) :
  (snd (edit_task i kws w) = true <-> get_task i w.(planner) <> None)
  /\ (get_task i w.(planner) = None -> fst (edit_task i kws w) = w)
  /\ (forall t, get_task i w.(planner) = Some t ->
        exists t',
          get_task i (fst (edit_task i kws w)).(planner) = Some t'
          /\ updates_applied kws t t'
          /\ (forall j, j <> i ->
                dict_get j (fst (edit_task i kws w)).(planner).(tasks)
                  = dict_get j w.(planner).(tasks)
                /\ dict_get j (fst (edit_task i kws w)).(planner).(completed)
                  = dict_get j w.(planner).(completed))
          /\ dict_keys (fst (edit_task i kws w)).(planner).(tasks) = dict_keys w.(planner).(tasks)
          /\ dict_keys (fst (edit_task i kws w)).(planner).(completed)
               = dict_keys w.(planner).(completed)
          /\ (fst (edit_task i kws w)).(planner).(next_id) = w.(planner).(next_id)
          /\ (fst (edit_task i kws w)).(planner).(xp) = w.(planner).(xp)
          /\ (fst (edit_task i kws w)).(planner).(level) = w.(planner).(level)
          /\ (fst (edit_task i kws w)).(planner).(achievements) = w.(planner).(achievements)).
Proof.
  unfold edit_task.
  destruct (get_task i (planner w)) as [t0|] eqn:Hg.
  2:{ simpl. split; [|split].
        - split; [intros H; discriminate H|intros H; exfalso; apply H; reflexivity].
        - reflexivity.
        - intros t H; discriminate H. }
  split; [|split].
  { split; [intros _; discriminate|intros _; destruct (dict_mem _ _); reflexivity]. }
  { intros H; discriminate H. }
  intros t [= <-]. exists (apply_kwargs kws t0).
  unfold get_task in Hg |- *.
  destruct (dict_mem i (tasks (planner w))) eqn:Hm; simpl.
  - unfold dict_mem in Hm.
    destruct (dict_get i (tasks (planner w))) as [t1|] eqn:Ht; [|discriminate].
    injection Hg as ->.
    rewrite dict_get_update_eq, Ht. simpl.
    split_and!; try reflexivity.
    + apply apply_kwargs_updates_applied.
    + intros j Hj. rewrite dict_get_update_ne by exact Hj. auto.
    + apply keys_dict_update.
  - unfold dict_mem in Hm.
    destruct (dict_get i (tasks (planner w))) as [t1|] eqn:Ht; [discriminate|].
    rewrite dict_get_update_eq, Hg. simpl.
    split_and!; try reflexivity.
    + apply apply_kwargs_updates_applied.
    + intros j Hj. rewrite dict_get_update_ne by exact Hj. auto.
    + apply keys_dict_update.
Qed.

(** C4 fails as stated: an edit with [id=99] and [completed_at="x"]
    changes the id and the completion stamp of a pending task. *)
Lemma edit_task_changes_id_and_completed_at :
  let w := fst (add_task "t0" "Read Ch.1" "General" None 3 "" fresh_world) in
  let w' := fst (edit_task 1 [KwId (Some 99); KwCompletedAt (Some "x")] w) in
  snd (edit_task 1 [KwId (Some 99); KwCompletedAt (Some "x")] w) = true
  /\ option_map id (get_task 1 w.(planner)) = Some (Some 1)
  /\ option_map id (get_task 1 w'.(planner)) = Some (Some 99)
  /\ option_map completed_at (get_task 1 w.(planner)) = Some None
  /\ option_map completed_at (get_task 1 w'.(planner)) = Some (Some "x"%string).
Proof. vm_compute. split_and!; reflexivity. Qed.

(** ** Sorting *)

Section SortLemmas.
Context {A : Type} (key : A -> Z).

Lemma insert_by_perm (x : A) (l : list A) : Permutation (insert_by key x l) (x :: l).
Proof.
  induction l as [|y l IH]; simpl; [reflexivity|].
  destruct (key x <=? key y); [reflexivity|].
  rewrite IH. apply perm_swap.
Qed.

Lemma sort_by_key_perm (l : list A) : Permutation (sort_by_key key l) l.
Proof.
  induction l as [|x l IH]; simpl; [reflexivity|].
  rewrite insert_by_perm, IH. reflexivity.
Qed.

Lemma insert_by_hd (a x : A) (l : list A) :
  HdRel (fun u v => key u <= key v) a l -> key a <= key x ->
  HdRel (fun u v => key u <= key v) a (insert_by key x l).
Proof.
  intros Hd Hax. destruct l as [|y l]; simpl; [constructor; exact Hax|].
  destruct (key x <=? key y); constructor; [exact Hax|]. inversion Hd; assumption.
Qed.

Lemma insert_by_sorted (x : A) (l : list A) :
  Sorted (fun u v => key u <= key v) l ->
  Sorted (fun u v => key u <= key v) (insert_by key x l).
Proof.
  induction l as [|y l IH]; simpl; intros Hs; [repeat constructor|].
  destruct (key x <=? key y) eqn:E.
  - apply Z.leb_le in E. constructor; [exact Hs|constructor; exact E].
  - apply Z.leb_gt in E. apply Sorted_inv in Hs as [Hs Hd].
    constructor; [apply IH, Hs|]. apply insert_by_hd; [exact Hd|lia].
Qed.

Lemma sort_by_key_sorted (l : list A) :
  Sorted (fun u v => key u <= key v) (sort_by_key key l).
Proof.
  induction l as [|x l IH]; simpl; [constructor|]. apply insert_by_sorted, IH.
Qed.

(** A list sorted by a key bounded by [M] is a run of keys below [M]
    followed by a run of keys equal to [M]. *)
Lemma sorted_split_max (M : Z) (l : list A) :
  Sorted (fun u v => key u <= key v) l -> (forall x, In x l -> key x <= M) ->
  exists l1 l2, l = l1 ++ l2 /\ (forall x, In x l1 -> key x < M)
                /\ (forall x, In x l2 -> key x = M).
Proof.
  intros Hs. apply Sorted_StronglySorted in Hs; [|intros a b c H1 H2; cbv beta in *; lia].
  induction Hs as [|x l Hs IH Hall]; intros Hb.
  - exists [], []. simpl. split_and!; tauto.
  - destruct (Z.lt_ge_cases (key x) M) as [Hlt|Hge].
    + destruct IH as (l1 & l2 & -> & H1 & H2); [intros; apply Hb; simpl; auto|].
      exists (x :: l1), l2. simpl. split_and!; [reflexivity| |exact H2].
      intros y [<-|Hy]; auto.
    + exists [], (x :: l). simpl. split_and!; [reflexivity|tauto|].
      intros y [<-|Hy]; [specialize (Hb x (or_introl eq_refl)); lia|].
      rewrite Forall_forall in Hall. specialize (Hall y (proj2 (list_elem_of_In _ _) Hy)).
      specialize (Hb y (or_intror Hy)). simpl in Hall. lia.
Qed.
End SortLemmas.

Lemma Sorted_app_l {A} (R : A -> A -> Prop) (l1 l2 : list A) :
  Sorted R (l1 ++ l2) -> Sorted R l1.
Proof.
  induction l1 as [|x l1 IH]; simpl; intros Hs; [constructor|].
  apply Sorted_inv in Hs as [Hs Hd]. constructor; [apply IH, Hs|].
  destruct l1; simpl in *; [constructor|]. inversion Hd; constructor; assumption.
Qed.

Lemma Sorted_map_rel {A B} (R : A -> A -> Prop) (R' : B -> B -> Prop) (f : A -> B)
    (l : list A) :
  Sorted R l -> (forall a b, In a l -> In b l -> R a b -> R' (f a) (f b)) ->
  Sorted R' (map f l).
Proof.
  induction 1 as [|x l Hs IH Hd]; intros Hrel; simpl; constructor.
  - apply IH. intros a b Ha Hb. apply Hrel; simpl; auto.
  - destruct l as [|y l]; simpl; constructor.
    inversion Hd; subst. apply Hrel; simpl; auto.
Qed.

Section ViewLemmas.
Variable fromisoformat : string -> option pydatetime.
Variable datetime_max : Z.

Lemma due_key_dated (x : Z * Task) (items : list (Z * Task)) :
  dates_parse fromisoformat datetime_max items -> In x items -> has_due x ->
  exists v, due_key fromisoformat datetime_max x = Some (Naive v) /\ v < datetime_max.
Proof.
  intros Hp Hin (d & Hd & Hne). destruct x as [k t]. unfold due_key. simpl in *.
  rewrite Hd. destruct (Hp k t d Hin Hd Hne) as (v & Hv & Hlt).
  destruct d; [congruence|]. eauto.
Qed.

Lemma due_key_undated (x : Z * Task) :
  ~ has_due x -> due_key fromisoformat datetime_max x = Some (Naive datetime_max).
Proof.
  intros Hn. destruct x as [k t]. unfold due_key. simpl.
  destruct (due_date t) as [[|c d]|] eqn:E; [reflexivity| |reflexivity].
  exfalso. apply Hn. exists (String c d). simpl. split; [exact E|discriminate].
Qed.

Lemma has_due_dec (x : Z * Task) : {has_due x} + {~ has_due x}.
Proof.
  destruct x as [k t]. unfold has_due. simpl.
  destruct (due_date t) as [[|c d]|] eqn:E.
  - right. intros (d & Hd & H). congruence.
  - left. exists (String c d). split; [reflexivity|discriminate].
  - right. intros (d & H & _). congruence.
Qed.

Lemma decorate_spec (items : list (Z * Task)) ds :
  decorate fromisoformat datetime_max items = Some ds ->
  map snd ds = items
  /\ (forall x, In x ds -> due_key fromisoformat datetime_max (snd x) = Some (fst x)).
Proof.
  revert ds. induction items as [|x items IH]; simpl; intros ds Hd.
  - injection Hd as <-. split; [reflexivity|simpl; tauto].
  - destruct (due_key fromisoformat datetime_max x) as [k|] eqn:Ek; [|discriminate].
    destruct (decorate fromisoformat datetime_max items) as [r|]; [|discriminate].
    injection Hd as <-. destruct (IH r eq_refl) as [Hm Hk].
    split; [simpl; congruence|]. intros y [<-|Hy]; [exact Ek|auto].
Qed.

Lemma decorate_none (items : list (Z * Task)) (x : Z * Task) :
  In x items -> due_key fromisoformat datetime_max x = None ->
  decorate fromisoformat datetime_max items = None.
Proof.
  induction items as [|y items IH]; simpl; [tauto|]. intros [<-|Hin] Hx.
  - rewrite Hx. reflexivity.
  - rewrite (IH Hin Hx). destruct (due_key fromisoformat datetime_max y); reflexivity.
Qed.

Lemma decorate_ok (items : list (Z * Task)) :
  dates_parse fromisoformat datetime_max items ->
  exists ds, decorate fromisoformat datetime_max items = Some ds
    /\ map snd ds = items
    /\ (forall x, In x ds -> due_key fromisoformat datetime_max (snd x) = Some (fst x)
                             /\ In (snd x) items).
Proof.
  intros Hp. induction items as [|x items IH]; simpl.
  - exists []. split_and!; [reflexivity|reflexivity|simpl; tauto].
  - assert (Hp' : dates_parse fromisoformat datetime_max items) by (intros k t d Hin Hd Hne; apply (Hp k t d); simpl; auto).
    destruct (IH Hp') as (ds & Hds & Hmap & Hall).
    assert (exists v, due_key fromisoformat datetime_max x = Some v) as [v Hv].
    { destruct (has_due_dec x) as [Hh|Hh].
      - destruct (due_key_dated x (x :: items) Hp (or_introl eq_refl) Hh) as (v & Hv & _).
        eauto.
      - eauto using due_key_undated. }
    rewrite Hv, Hds. exists ((v, x) :: ds). split_and!; [reflexivity|simpl; congruence|].
    intros y [<-|Hy]; simpl; [auto|]. destruct (Hall y Hy). auto.
Qed.

(** Under [dates_parse] every key is naive. *)
Lemma dates_parse_naive (items : list (Z * Task)) (y : pydatetime * (Z * Task)) :
  dates_parse fromisoformat datetime_max items -> In (snd y) items ->
  due_key fromisoformat datetime_max (snd y) = Some (fst y) ->
  (has_due (snd y) /\ exists v, fst y = Naive v /\ v < datetime_max)
  \/ (~ has_due (snd y) /\ fst y = Naive datetime_max).
Proof.
  intros Hp Hin Hk. destruct (has_due_dec (snd y)) as [Hh|Hh].
  - left. split; [exact Hh|].
    destruct (due_key_dated (snd y) items Hp Hin Hh) as (v & Hv & Hlt).
    exists v. split; [congruence|exact Hlt].
  - right. split; [exact Hh|]. rewrite (due_key_undated (snd y) Hh) in Hk. congruence.
Qed.

End ViewLemmas.

(** C8 (as amended): [view_tasks] returns the listed collection
    rearranged: with [sort_by="priority"], which is also the default, in
    non-decreasing priority; with [sort_by="due"], provided every
    non-empty due date parses to a naive datetime before
    [datetime.max], the tasks with a due date first, ascending by date,
    then those without; the call raises when a due date does not parse,
    or when an offset-aware due date meets a naive one or a task
    without a due date (which sorts as the naive [datetime.max]); with
    ["id"] or any other value, in ascending id order. *)
Theorem view_tasks_order (fromisoformat : string -> option pydatetime) (datetime_max : Z)
    (show_completed : bool) (p : Planner) :
  (exists l,
     view_tasks_default fromisoformat datetime_max show_completed p = Some l
     /\ view_tasks fromisoformat datetime_max show_completed "priority" p = Some l
     /\ Sorted (fun a b => (snd a).(priority) <= (snd b).(priority)) l
     /\ Permutation l (if show_completed then p.(completed) else p.(tasks)))
  /\ (dates_parse fromisoformat datetime_max
        (if show_completed then p.(completed) else p.(tasks)) ->
      exists l1 l2,
        view_tasks fromisoformat datetime_max show_completed "due" p = Some (l1 ++ l2)
        /\ Forall has_due l1 /\ Forall (fun x => ~ has_due x) l2
        /\ Sorted (due_le fromisoformat) l1
        /\ Permutation (l1 ++ l2) (if show_completed then p.(completed) else p.(tasks)))
  /\ (forall x, In x (if show_completed then p.(completed) else p.(tasks)) ->
      due_key fromisoformat datetime_max x = None ->
      view_tasks fromisoformat datetime_max show_completed "due" p = None)
  /\ (forall x y u v,
      In x (if show_completed then p.(completed) else p.(tasks)) ->
      In y (if show_completed then p.(completed) else p.(tasks)) ->
      due_key fromisoformat datetime_max x = Some (Aware u) ->
      due_key fromisoformat datetime_max y = Some (Naive v) ->
      view_tasks fromisoformat datetime_max show_completed "due" p = None)
  /\ (forall sort_by, sort_by <> "priority"%string -> sort_by <> "due"%string ->
      exists l,
        view_tasks fromisoformat datetime_max show_completed sort_by p = Some l
        /\ Sorted (fun a b => fst a <= fst b) l
        /\ Permutation l (if show_completed then p.(completed) else p.(tasks))).
Proof.
  unfold view_tasks_default, view_tasks.
  remember (if show_completed then completed p else tasks p) as items eqn:Hitems.
  clear Hitems.
  destruct items as [|x rest].
  { split_and!.
    - exists []. split_and!; auto.
    - intros _. exists [], []. split_and!; auto.
    - intros x [].
    - intros x y u v [].
    - intros s _ _. exists []. split_and!; auto. }
  generalize (x :: rest) as items. clear x rest. intros items.
  replace ("priority" =? "priority")%string with true by reflexivity.
  replace ("priority" =? "due")%string with false by reflexivity.
  replace ("due" =? "priority")%string with false by reflexivity.
  replace ("due" =? "due")%string with true by reflexivity.
  split_and!.
  - eexists. split_and!; [reflexivity|reflexivity| |].
    + apply (sort_by_key_sorted (fun x => priority (snd x))).
    + apply sort_by_key_perm.
  - intros Hp.
    destruct (decorate_ok fromisoformat datetime_max items Hp) as (ds & Hds & Hmap & Hall).
    rewrite Hds.
    assert (Hnaive : existsb (fun x => is_aware (fst x)) ds = false).
    { apply not_true_is_false. intros Hex. apply existsb_exists in Hex as (y & Hy & Ha).
      destruct (Hall y Hy) as [Hk Hin].
      destruct (dates_parse_naive fromisoformat datetime_max items y Hp Hin Hk)
        as [(_ & v & Hv & _)|(_ & Hv)]; rewrite Hv in Ha; discriminate. }
    rewrite Hnaive. cbn [andb].
    set (dkey := fun x : pydatetime * (Z * Task) => dt_val (fst x)).
    change (fun x : pydatetime * (Z * Task) => dt_val (fst x)) with dkey.
    assert (Hkey : forall y, In y (sort_by_key dkey ds) ->
              (has_due (snd y) /\ dkey y < datetime_max)
              \/ (~ has_due (snd y) /\ dkey y = datetime_max)).
    { intros y Hy. apply (Permutation_in _ (sort_by_key_perm dkey ds)) in Hy.
      destruct (Hall y Hy) as [Hk Hin]. unfold dkey.
      destruct (dates_parse_naive fromisoformat datetime_max items y Hp Hin Hk)
        as [(Hh & v & Hv & Hlt)|(Hh & Hv)]; rewrite Hv; simpl; [left|right]; auto. }
    destruct (sorted_split_max dkey datetime_max (sort_by_key dkey ds)
                (sort_by_key_sorted dkey ds)) as (S1 & S2 & HS & H1 & H2).
    { intros y Hy. destruct (Hkey y Hy) as [[_ ?]|[_ ?]]; lia. }
    exists (map snd S1), (map snd S2).
    assert (Hin1 : forall y, In y S1 -> In y (sort_by_key dkey ds))
      by (intros y Hy; rewrite HS; apply in_or_app; auto).
    assert (Hin2 : forall y, In y S2 -> In y (sort_by_key dkey ds))
      by (intros y Hy; rewrite HS; apply in_or_app; auto).
    split_and!.
    + rewrite <- map_app, <- HS. reflexivity.
    + apply Forall_forall. intros z Hz. apply list_elem_of_In, in_map_iff in Hz as (y & <- & Hy).
      destruct (Hkey y (Hin1 y Hy)) as [[Hh _]|[_ He]]; [exact Hh|].
      specialize (H1 y Hy). lia.
    + apply Forall_forall. intros z Hz. apply list_elem_of_In, in_map_iff in Hz as (y & <- & Hy).
      destruct (Hkey y (Hin2 y Hy)) as [[_ Hl]|[Hh _]]; [|exact Hh].
      specialize (H2 y Hy). lia.
    + apply (Sorted_map_rel (fun u v => dkey u <= dkey v)).
      * apply (Sorted_app_l _ S1 S2). rewrite <- HS. apply sort_by_key_sorted.
      * intros a b Ha Hb Hab da db va vb Hda Hdb Hva Hvb.
        destruct (Hall a (Permutation_in _ (sort_by_key_perm dkey ds) (Hin1 a Ha))) as [Hka _].
        destruct (Hall b (Permutation_in _ (sort_by_key_perm dkey ds) (Hin1 b Hb))) as [Hkb _].
        specialize (H1 a Ha) as Ha'. specialize (H1 b Hb) as Hb'.
        unfold dkey in Hab, Ha', Hb'.
        unfold due_key in Hka, Hkb. rewrite Hda in Hka. rewrite Hdb in Hkb.
        destruct da; [injection Hka as Hka'; rewrite <- Hka' in Ha'; simpl in Ha'; lia|].
        destruct db; [injection Hkb as Hkb'; rewrite <- Hkb' in Hb'; simpl in Hb'; lia|].
        rewrite Hva in Hka. rewrite Hvb in Hkb. injection Hka as ->. injection Hkb as ->.
        exact Hab.
    + rewrite <- map_app, <- HS, <- Hmap. apply Permutation_map, sort_by_key_perm.
  - intros x Hx Hn. rewrite (decorate_none fromisoformat datetime_max items x Hx Hn).
    reflexivity.
  - intros x y u v Hx Hy Hu Hv.
    destruct (decorate fromisoformat datetime_max items) as [ds|] eqn:Hd; [|reflexivity].
    destruct (decorate_spec fromisoformat datetime_max items ds Hd) as [Hmap Hk].
    rewrite <- Hmap in Hx, Hy.
    apply in_map_iff in Hx as (x' & <- & Hx'). apply in_map_iff in Hy as (y' & <- & Hy').
    assert (Ea : existsb (fun x => is_aware (fst x)) ds = true).
    { apply existsb_exists. exists x'. split; [exact Hx'|].
      rewrite Hk in Hu by exact Hx'. injection Hu as ->. reflexivity. }
    assert (En : existsb (fun x => negb (is_aware (fst x))) ds = true).
    { apply existsb_exists. exists y'. split; [exact Hy'|].
      rewrite Hk in Hv by exact Hy'. injection Hv as ->. reflexivity. }
    rewrite Ea, En. reflexivity.
  - intros s Hs1 Hs2.
    apply String.eqb_neq in Hs1, Hs2. rewrite Hs1, Hs2.
    eexists. split_and!; [reflexivity| |].
    + apply (sort_by_key_sorted fst).
    + apply sort_by_key_perm.
Qed.

(** C8 fails as stated: by default [view_tasks] sorts by priority, not
    by id; two pending tasks of priorities 5 and 1 are listed as ids 2, 1. *)
Lemma view_tasks_default_not_id_order :
  option_map (map fst)
    (view_tasks_default (fun _ => None) 0 false
       (run fresh_world [OpAdd "t0" "A" "General" None 5 "";
                         OpAdd "t1" "B" "General" None 1 ""]).(planner))
  = Some [2; 1].
Proof. vm_compute. reflexivity. Qed.

(** ** [int(str(k))] = k *)

Lemma N_digits_fuel_value (fuel : nat) (n : N) :
  fold_left (fun a d => a * 10 + Z.of_N d) (N_digits_fuel fuel n) 0 = Z.of_N n.
Proof.
  revert n. induction fuel as [|f IH]; intros n; simpl; [reflexivity|].
  destruct (n <? 10)%N eqn:E; [reflexivity|].
  rewrite fold_left_app, IH. simpl.
  rewrite (N.div_mod n 10) at 3 by lia. lia.
Qed.

Lemma N_digits_fuel_small (fuel : nat) (n : N) :
  (n < 10 ^ N.of_nat (S fuel))%N -> Forall (fun d => (d < 10)%N) (N_digits_fuel fuel n).
Proof.
  revert n. induction fuel as [|f IH]; intros n Hn; simpl.
  - constructor; [simpl in Hn; lia|constructor].
  - destruct (n <? 10)%N eqn:E.
    + apply N.ltb_lt in E. repeat constructor. lia.
    + apply Forall_app. split.
      * apply IH. apply N.Div0.div_lt_upper_bound.
        rewrite Nat2N.inj_succ, N.pow_succ_r' in Hn. exact Hn.
      * repeat constructor. apply N.mod_lt. lia.
Qed.

Lemma N_digits_small (n : N) : Forall (fun d => (d < 10)%N) (N_digits n).
Proof.
  unfold N_digits. apply N_digits_fuel_small.
  rewrite Nat2N.inj_succ, N2Nat.id.
  apply N.lt_le_trans with (2 ^ N.size n)%N; [apply N.size_gt|].
  apply N.le_trans with (10 ^ N.size n)%N.
  - apply N.pow_le_mono_l. lia.
  - apply N.pow_le_mono_r; lia.
Qed.

Lemma N_digits_nonempty (n : N) : N_digits n <> [].
Proof.
  unfold N_digits. generalize (N.to_nat (N.size n)) as fuel. intros fuel.
  revert n. induction fuel as [|f IH]; intros n; simpl; [discriminate|].
  destruct (n <? 10)%N; [discriminate|].
  intros H. apply app_eq_nil in H as [_ H]. discriminate.
Qed.

Lemma digit_char_val (d : N) : (d < 10)%N ->
  is_digit (digit_char d) = true /\ digit_val (digit_char d) = Z.of_N d.
Proof.
  intros Hd. unfold is_digit, digit_val, digit_char.
  rewrite N_ascii_embedding by lia. split; [apply andb_true_iff; split; apply N.leb_le; lia|lia].
Qed.

Lemma digits_val_chars (ds : list N) (acc : Z) :
  Forall (fun d => (d < 10)%N) ds ->
  digits_val acc (string_of_chars (map digit_char ds))
  = Some (fold_left (fun a d => a * 10 + Z.of_N d) ds acc).
Proof.
  revert acc. induction ds as [|d ds IH]; intros acc Hall; simpl; [reflexivity|].
  inversion Hall as [|? ? Hd Hall']; subst.
  destruct (digit_char_val d Hd) as [-> ->]. apply IH. exact Hall'.
Qed.

Lemma rev_chars_soc (l m : list ascii) :
  rev_chars (string_of_chars l) (string_of_chars m) = string_of_chars (rev l ++ m).
Proof.
  revert m. induction l as [|c l IH]; intros m; simpl; [reflexivity|].
  change (String c (string_of_chars m)) with (string_of_chars (c :: m)).
  rewrite IH, <- app_assoc. reflexivity.
Qed.

Lemma int_lstrip_nonspace (l : list ascii) :
  Forall (fun c => is_int_space c = false) l -> int_lstrip (string_of_chars l) = string_of_chars l.
Proof.
  destruct l as [|c l]; simpl; [reflexivity|].
  intros Hall. inversion Hall; subst. rewrite H1. reflexivity.
Qed.

Lemma int_strip_nonspace (l : list ascii) :
  Forall (fun c => is_int_space c = false) l -> int_strip (string_of_chars l) = string_of_chars l.
Proof.
  intros Hall. unfold int_strip.
  rewrite int_lstrip_nonspace by exact Hall.
  change EmptyString with (string_of_chars []).
  rewrite rev_chars_soc, app_nil_r.
  rewrite int_lstrip_nonspace by (apply Forall_rev; exact Hall).
  rewrite rev_chars_soc, app_nil_r, rev_involutive. reflexivity.
Qed.

Lemma digit_char_nonspace (d : N) : (d < 10)%N -> is_int_space (digit_char d) = false.
Proof.
  intros Hd. unfold is_int_space, digit_char. rewrite N_ascii_embedding by lia.
  apply orb_false_iff. split; [apply andb_false_iff; right; apply N.leb_gt; lia|].
  apply N.eqb_neq. lia.
Qed.

Lemma digit_char_not_sign (d : N) (c : ascii) :
  (d < 10)%N -> (N_of_ascii c < 48)%N -> Ascii.eqb (digit_char d) c = false.
Proof.
  intros Hd Hc. destruct (Ascii.eqb (digit_char d) c) eqn:E; [|reflexivity].
  apply Ascii.eqb_eq in E. subst c. unfold digit_char in Hc.
  rewrite N_ascii_embedding in Hc by lia. lia.
Qed.

(** [int(str(k))] gives [k] back. *)
Lemma py_int_of_str_of_int (z : Z) : py_int_of_str (str_of_int z) = Some z.
Proof.
  assert (Hnat : forall n : N,
    py_int_of_str (string_of_chars (map digit_char (N_digits n))) = Some (Z.of_N n)
    /\ int_body (string_of_chars (map digit_char (N_digits n))) = Some (Z.of_N n)).
  { intros n. pose proof (N_digits_small n) as Hs. pose proof (N_digits_nonempty n) as Hne.
    assert (Hb : int_body (string_of_chars (map digit_char (N_digits n))) = Some (Z.of_N n)).
    { destruct (N_digits n) as [|d ds] eqn:E; [congruence|].
      inversion Hs as [|? ? Hd _]; subst.
      unfold int_body. simpl string_of_chars. cbv beta iota.
      rewrite (proj1 (digit_char_val d Hd)).
      change (String (digit_char d) (string_of_chars (map digit_char ds)))
        with (string_of_chars (map digit_char (d :: ds))).
      rewrite digits_val_chars by exact Hs. rewrite <- E. f_equal. apply N_digits_fuel_value. }
    split; [|exact Hb].
    unfold py_int_of_str. rewrite int_strip_nonspace.
    2:{ apply Forall_map. eapply Forall_impl; [exact Hs|]. intros d Hd. apply digit_char_nonspace, Hd. }
    destruct (N_digits n) as [|d ds] eqn:E; [congruence|].
    inversion Hs as [|? ? Hd _]; subst. simpl string_of_chars. cbv beta iota.
    rewrite !digit_char_not_sign by (try exact Hd; vm_compute; reflexivity).
    exact Hb. }
  destruct z as [|p|p]; simpl.
  - apply (proj1 (Hnat 0%N)).
  - apply (proj1 (Hnat (Npos p))).
  - unfold py_int_of_str.
    change (String "-" (string_of_chars (map digit_char (N_digits (N.pos p)))))
      with (string_of_chars ("-"%char :: map digit_char (N_digits (N.pos p)))).
    rewrite int_strip_nonspace.
    + simpl string_of_chars. cbv beta iota.
      replace (Ascii.eqb "-" "-") with true by reflexivity.
      rewrite (proj2 (Hnat (Npos p))). reflexivity.
    + constructor; [reflexivity|]. apply Forall_map.
      eapply Forall_impl; [apply N_digits_small|]. intros d Hd. apply digit_char_nonspace, Hd.
Qed.

(** ** The JSON round trip *)

Lemma sdict_set_notin (k : string) (v : json) (d : list (string * json)) :
  ~ In k (map fst d) -> sdict_set k v d = d ++ [(k, v)].
Proof.
  induction d as [|[k' v'] d IH]; simpl; [reflexivity|].
  intros Hn. destruct (String.eqb k k') eqn:E.
  - apply String.eqb_eq in E. subst. tauto.
  - rewrite IH; auto.
Qed.

Lemma json_dict_app (o acc : list (string * json)) :
  NoDup (map fst (acc ++ o)) ->
  fold_left (fun a '(k, v) => sdict_set k v a) o acc = acc ++ o.
Proof.
  revert acc. induction o as [|[k v] o IH]; intros acc Hnd; simpl.
  - rewrite app_nil_r. reflexivity.
  - rewrite sdict_set_notin.
    + rewrite IH; [rewrite <- app_assoc; reflexivity|]. rewrite <- app_assoc. exact Hnd.
    + intros Hin. rewrite map_app in Hnd. simpl in Hnd.
      apply NoDup_app in Hnd as (_ & Hd & _).
      apply (Hd k); [apply list_elem_of_In; exact Hin|left].
Qed.

Lemma json_dict_nodup (o : list (string * json)) :
  NoDup (map fst o) -> json_dict o = o.
Proof. intros. apply (json_dict_app o []). assumption. Qed.

Lemma str_of_int_inj (a b : Z) : str_of_int a = str_of_int b -> a = b.
Proof.
  intros H. pose proof (py_int_of_str_of_int a) as Ha.
  rewrite H, py_int_of_str_of_int in Ha. congruence.
Qed.

Lemma tasks_json_keys_nodup (ts : dict Task) :
  NoDup (dict_keys ts) ->
  NoDup (map fst (map (fun '(k, t) => (str_of_int k, task_to_json t)) ts)).
Proof.
  induction ts as [|[k t] ts IH]; simpl; intros Hnd; [constructor|].
  inversion Hnd as [|? ? Hni Hnd']; subst. constructor; [|auto].
  intros Hin%list_elem_of_In. apply Hni, list_elem_of_In.
  rewrite map_map in Hin. apply in_map_iff in Hin as ([k' t'] & Heq & Hin').
  simpl in Heq. apply str_of_int_inj in Heq. subst k'.
  apply in_map_iff. exists (k, t'). auto.
Qed.

Lemma task_roundtrip (now : string) (t : Task) :
  task_from_json now (task_to_json t)
  = DOk (match t.(id) with Some i => JInt i | None => JNull end, set_id None t).
Proof.
  destruct t as [[i|] ti ca [du|] pr no cr [co|]]; reflexivity.
Qed.

Lemma tasks_roundtrip (now : string) (ts : dict Task) :
  NoDup (dict_keys ts) ->
  tasks_from_json now (tasks_to_json ts)
  = DOk (map (fun '(k, t) =>
                (k, (match t.(id) with Some i => JInt i | None => JNull end, set_id None t)))
             ts).
Proof.
  intros Hnd. unfold tasks_from_json, tasks_to_json.
  rewrite json_dict_nodup by (apply tasks_json_keys_nodup, Hnd).
  assert (Hl : forall l : dict Task,
    dlist (map (fun '(k, v) => dpair (dec_key k) (task_from_json now v))
               (map (fun '(k, t) => (str_of_int k, task_to_json t)) l))
    = DOk (map (fun '(k, t) =>
                (k, (match t.(id) with Some i => JInt i | None => JNull end, set_id None t)))
             l)).
  { induction l as [|[k t] l IH]; [reflexivity|]. cbn [map dlist].
    rewrite IH. unfold dec_key. rewrite py_int_of_str_of_int, task_roundtrip. reflexivity. }
  rewrite Hl. simpl. f_equal. apply fold_dict_set_nodup.
  unfold dict_keys. rewrite map_map.
  erewrite map_ext; [exact Hnd|]. intros [k t]. reflexivity.
Qed.

Lemma achievements_roundtrip (A : gset string) :
  dec_achievements (JArr (map JStr (elements A))) = DOk A.
Proof.
  assert (Hl : forall l : list string,
    dlist (map dec_ach_elem (map JStr l)) = DOk l).
  { induction l as [|s l IH]; [reflexivity|]. cbn [map dlist]. rewrite IH. reflexivity. }
  unfold dec_achievements. rewrite Hl. simpl. f_equal.
  apply list_to_set_elements_L.
Qed.

Lemma set_id_set_id (a b : option Z) (t : Task) : set_id a (set_id b t) = set_id a t.
Proof. destruct t. reflexivity. Qed.

Lemma restore_ids_roundtrip (ts cs : dict Task) :
  (forall k, In k (dict_keys ts) -> ~ In k (dict_keys cs)) ->
  restore_ids
    (map (fun '(k, t) =>
            (k, (match t.(id) with Some i => JInt i | None => JNull end, set_id None t))) ts)
    (map (fun '(k, t) =>
            (k, (match t.(id) with Some i => JInt i | None => JNull end, set_id None t))) cs)
  = DOk (reset_id_entries ts, reset_id_entries cs).
Proof.
  intros Hdis. unfold restore_ids.
  set (cs' := map _ cs).
  assert (Hmem : forall k, In k (dict_keys ts) -> dict_mem k cs' = false).
  { intros k Hk. apply dict_mem_false. unfold cs', dict_keys. rewrite map_map.
    intros Hin. apply (Hdis k Hk). unfold dict_keys.
    erewrite map_ext; [exact Hin|]. intros [k' t']. reflexivity. }
  assert (Hc : map (fun '(k, (_, t)) => (k, set_id (Some k) t)) cs' = reset_id_entries cs).
  { unfold cs', reset_id_entries. rewrite map_map. apply map_ext.
    intros [k t]. rewrite set_id_set_id. reflexivity. }
  rewrite Hc. clearbody cs'. clear Hc Hdis.
  enough (Hl : dlist (map (fun '(k, (raw, t)) =>
                   if dict_mem k cs' then dmap (fun i => (k, set_id i t)) (dec_opt_int raw)
                   else DOk (k, set_id (Some k) t))
                 (map (fun '(k, t) =>
                   (k, (match t.(id) with Some i => JInt i | None => JNull end,
                        set_id None t))) ts))
              = DOk (reset_id_entries ts)) by (rewrite Hl; reflexivity).
  induction ts as [|[k t] ts IH]; [reflexivity|]. cbn [map dlist].
  rewrite (Hmem k) by (left; reflexivity).
  rewrite IH by (intros k' Hk'; apply Hmem; right; exact Hk').
  rewrite set_id_set_id. reflexivity.
Qed.

Lemma decode_save_json (now : string) (p : Planner) :
  planner_wf p -> decode_planner now (save_json p) = DOk (reset_ids p).
Proof.
  intros (Hnt & Hnc & Hdis).
  assert (Hdis' : forall k, In k (dict_keys p.(tasks)) -> ~ In k (dict_keys p.(completed))).
  { intros k Hk Hc. rewrite Forall_forall in Hdis.
    apply (Hdis k (proj2 (list_elem_of_In _ _) Hk)), list_elem_of_In. exact Hc. }
  unfold decode_planner, save_json.
  rewrite json_dict_nodup by (apply (bool_decide_unpack _); reflexivity).
  cbv [dget sdict_get]. cbn -[tasks_from_json dec_achievements].
  rewrite achievements_roundtrip, (tasks_roundtrip now _ Hnt), (tasks_roundtrip now _ Hnc).
  cbn -[restore_ids]. rewrite (restore_ids_roundtrip _ _ Hdis'). reflexivity.
Qed.

Lemma reset_id_entries_id (d : dict Task) :
  (forall k t, In (k, t) d -> t.(id) = Some k) -> reset_id_entries d = d.
Proof.
  induction d as [|[k t] d IH]; intros H; [reflexivity|]. simpl.
  rewrite IH by (intros; apply H; right; assumption).
  specialize (H k t (or_introl eq_refl)).
  destruct t; simpl in *; subst; reflexivity.
Qed.

(** C6 (amended): [load] right after [save], on a planner whose dicts
    have distinct keys and no key in both collections, gives back the
    same keys, [next_id], [xp], [level], achievements and every task
    field except [id], which [load] resets to the task's key. The state
    is reproduced exactly when every task's [id] is its key. *)
Theorem save_load_roundtrip (now : string) (w : World) :
  planner_wf w.(planner) ->
  load now (save w) = Some (mkWorld (reset_ids w.(planner)) (save w).(storage))
  /\ ((forall k t, In (k, t) (w.(planner).(tasks) ++ w.(planner).(completed)) ->
         t.(id) = Some k) ->
      reset_ids w.(planner) = w.(planner)).
Proof.
  intros Hwf. split.
  - unfold load, save. cbn [storage planner read_json].
    rewrite (decode_save_json now _ Hwf). reflexivity.
  - intros Hid. destruct w as [[ts cs ni x lv ac] st]. unfold reset_ids. simpl in *.
    rewrite !reset_id_entries_id; [reflexivity| |];
      intros k t Hin; apply Hid, in_or_app; auto.
Qed.

Lemma save_load_roundtrip_witness :
  planner_wf (run fresh_world [OpAdd "t0" "A" "General" None 2 "";
                               OpComplete "t1" 1;
                               OpAdd "t2" "B" "Math" (Some "2026-01-01") 4 "n"]).(planner)
  /\ load "t3" (save (run fresh_world [OpAdd "t0" "A" "General" None 2 "";
                               OpComplete "t1" 1;
                               OpAdd "t2" "B" "Math" (Some "2026-01-01") 4 "n"]))
     = Some (mkWorld (reset_ids (run fresh_world [OpAdd "t0" "A" "General" None 2 "";
                               OpComplete "t1" 1;
                               OpAdd "t2" "B" "Math" (Some "2026-01-01") 4 "n"]).(planner))
              (save (run fresh_world [OpAdd "t0" "A" "General" None 2 "";
                               OpComplete "t1" 1;
                               OpAdd "t2" "B" "Math" (Some "2026-01-01") 4 "n"])).(storage)).
Proof.
  assert (H : planner_wf (run fresh_world [OpAdd "t0" "A" "General" None 2 "";
                               OpComplete "t1" 1;
                               OpAdd "t2" "B" "Math" (Some "2026-01-01") 4 "n"]).(planner))
    by (apply (bool_decide_unpack _); vm_compute; reflexivity).
  split; [exact H | apply (proj1 (save_load_roundtrip "t3" _ H))].
Defined.

(** C6 fails as stated: [edit_task(1, id=99)] sets the attribute, [save]
    writes ["id": 99], and [load] sets it back to the key 1. *)
Lemma save_load_loses_edited_id :
  let w := run fresh_world [OpAdd "t0" "A" "General" None 3 ""; OpEdit 1 [KwId (Some 99)]] in
  option_map id (dict_get 1 w.(planner).(tasks)) = Some (Some 99)
  /\ option_map (fun w' => option_map id (dict_get 1 w'.(planner).(tasks)))
       (load "t1" (save w)) = Some (Some (Some 1)).
Proof. vm_compute. split; reflexivity. Qed.



(** ** Invariants of reachable worlds *)

Lemma planner_wf_In (p : Planner) :
  planner_wf p <->
  NoDup (dict_keys p.(tasks)) /\ NoDup (dict_keys p.(completed))
  /\ (forall k, In k (dict_keys p.(tasks)) -> ~ In k (dict_keys p.(completed))).
Proof.
  unfold planner_wf. rewrite Forall_forall. split.
  - intros (H1 & H2 & H3). split_and!; [assumption|assumption|].
    intros k Hk Hc. apply (H3 k); apply list_elem_of_In; assumption.
  - intros (H1 & H2 & H3). split_and!; [assumption|assumption|].
    intros k Hk%list_elem_of_In Hc%list_elem_of_In. exact (H3 k Hk Hc).
Qed.

Lemma step_storage (o : op) (w : World) :
  (step o w).(storage) = w.(storage)
  \/ (step o w).(storage) = FJson (save_json (step o w).(planner)).
Proof.
  destruct o; simpl; auto.
  - unfold delete_task. destruct (dict_mem i _); [|destruct (dict_mem i _)]; auto.
  - unfold edit_task. destruct (get_task i _); [|auto].
    destruct (dict_mem i _); auto.
  - unfold complete_task. destruct (dict_get i _); [|auto].
    destruct (_ >? _); auto.
Qed.

Lemma step_inv (o : op) (w : World) :
  planner_inv w.(planner) -> planner_inv (step o w).(planner).
Proof.
  destruct w as [[ts cs n x lv ach] st].
  unfold planner_inv. rewrite !planner_wf_In. simpl.
  intros ((Hnt & Hnc & Hdis) & Hlt & Hx & Hlv).
  assert (Hlt1 : forall k, In k (dict_keys ts) -> k < n)
    by (intros k Hk; apply Hlt, in_or_app; auto).
  assert (Hlt2 : forall k, In k (dict_keys cs) -> k < n)
    by (intros k Hk; apply Hlt, in_or_app; auto).
  destruct o as [now ti ca du pr no | i | i kws | now i | | |]; simpl.
  - (* add_task *)
    split_and!; simpl; auto using NoDup_dict_set.
    + intros k Hk%In_keys_dict_set Hc. destruct Hk as [-> | Hk].
      * specialize (Hlt2 n Hc). lia.
      * exact (Hdis k Hk Hc).
    + intros k [Hk%In_keys_dict_set | Hk]%in_app_or;
        [destruct Hk as [-> | Hk]; [lia|]|]; specialize (Hlt k); rewrite in_app_iff in Hlt;
        assert (k < n) by auto; lia.
  - (* delete_task *)
    unfold delete_task. simpl.
    destruct (dict_mem i ts); [|destruct (dict_mem i cs)]; simpl;
      split_and!; auto using NoDup_dict_pop.
    + intros k Hk%keys_dict_pop_sub. auto.
    + intros k [Hk%keys_dict_pop_sub | Hk]%in_app_or; apply Hlt, in_or_app; auto.
    + intros k Hk Hc%keys_dict_pop_sub. exact (Hdis k Hk Hc).
    + intros k [Hk | Hk%keys_dict_pop_sub]%in_app_or; apply Hlt, in_or_app; auto.
  - (* edit_task *)
    unfold edit_task. simpl.
    destruct (get_task i _); [|simpl; auto].
    destruct (dict_mem i ts); simpl; rewrite ?keys_dict_update; auto.
  - (* complete_task *)
    unfold complete_task. simpl.
    destruct (dict_get i ts) as [t|] eqn:Ht; [|simpl; auto].
    assert (Hi : In i (dict_keys ts)).
    { apply dict_get_In in Ht. apply in_map_iff. exists (i, t). auto. }
    assert (Hle : x / XP_TO_LEVEL <= (x + XP_PER_TASK) / XP_TO_LEVEL)
      by (apply Z.div_le_mono; unfold XP_PER_TASK, XP_TO_LEVEL; lia).
    destruct (Z.gtb_spec ((x + XP_PER_TASK) / XP_TO_LEVEL + 1) lv); simpl;
    (split_and!;
      [ apply NoDup_dict_pop; exact Hnt
      | apply NoDup_dict_set; exact Hnc
      | intros k Hk Hc; apply (keys_dict_pop i ts Hnt k) in Hk as [Hk Hne];
        apply In_keys_dict_set in Hc as [-> | Hc]; [congruence|];
        exact (Hdis k Hk Hc)
      | intros k [Hk%keys_dict_pop_sub | Hk%In_keys_dict_set]%in_app_or; [auto|];
        destruct Hk as [-> | Hk]; auto
      | unfold XP_PER_TASK; lia
      | try reflexivity; lia ]).
  - auto.
  - auto.
  - auto.
Qed.

Lemma load_saved (now : string) (p q : Planner) :
  planner_wf q ->
  load now (mkWorld p (FJson (save_json q))) = Some (mkWorld (reset_ids q) (FJson (save_json q))).
Proof.
  intros Hwf. unfold load. cbn -[decode_planner create_default_file].
  rewrite (decode_save_json now _ Hwf). reflexivity.
Qed.

Lemma load_unreadable (now : string) (p : Planner) (st : file) :
  st = FMissing \/ st = FBroken ->
  load now (mkWorld p st) = Some (mkWorld default_planner (FJson (save_json default_planner))).
Proof. intros [-> | ->]; reflexivity. Qed.

Lemma keys_reset_id_entries (d : dict Task) : dict_keys (reset_id_entries d) = dict_keys d.
Proof. unfold dict_keys, reset_id_entries. rewrite map_map. apply map_ext. intros [k t]. reflexivity. Qed.

Lemma inv_reset_ids (q : Planner) : planner_inv q -> planner_inv (reset_ids q).
Proof.
  unfold planner_inv, planner_wf, reset_ids. simpl. rewrite !keys_reset_id_entries. auto.
Qed.

Lemma inv_default : planner_inv default_planner.
Proof.
  unfold planner_inv, planner_wf. simpl. split_and!; try constructor.
  intros k []. reflexivity.
Qed.

Lemma reachable_inv (w : World) :
  reachable w ->
  planner_inv w.(planner) /\ exists q, w.(storage) = FJson (save_json q) /\ planner_inv q.
Proof.
  induction 1 as [now st w Hst Hl | o w _ [Hinv (q & Hq & Hqi)]
                 | now w w' _ [Hinv (q & Hq & Hqi)] Hl].
  - rewrite load_unreadable in Hl by exact Hst. injection Hl as <-. simpl.
    split; [apply inv_default|]. exists default_planner. split; [reflexivity|apply inv_default].
  - split; [apply step_inv, Hinv|].
    destruct (step_storage o w) as [-> | ->].
    + exists q. auto.
    + exists (step o w).(planner). split; [reflexivity|]. apply step_inv, Hinv.
  - rewrite Hq, load_saved in Hl by apply Hqi. injection Hl as <-. simpl.
    split; [apply inv_reset_ids, Hqi|]. exists q. auto.
Qed.

Lemma reachable_fresh : reachable fresh_world.
Proof. apply (reach_start "" FMissing); [left; reflexivity|reflexivity]. Qed.

Lemma reachable_run (ops : list op) (w : World) : reachable w -> reachable (run w ops).
Proof.
  revert w. induction ops as [|o ops IH]; intros w Hr; [exact Hr|]. simpl.
  apply IH, reach_step, Hr.
Qed.

(** C1: in a reachable world, [complete_task] on a pending id returns
    [(True, {"gained": 20, "leveled_up": ..., "prev_xp": xp})], where
    [leveled_up] says whether the level rose; afterwards the id is no
    longer pending, the completed dict maps it to the task with
    [completed_at] set, [xp] has grown by 20 and [level] is
    [xp // 100 + 1]. *)
Theorem complete_pending_ok (now : string) (i : Z) (w : World) :
  reachable w -> dict_mem i w.(planner).(tasks) = true ->
  exists t, dict_get i w.(planner).(tasks) = Some t
    /\ snd (complete_task now i w)
       = CompleteOk 20 ((fst (complete_task now i w)).(planner).(level) >? w.(planner).(level))
           w.(planner).(xp)
    /\ dict_mem i (fst (complete_task now i w)).(planner).(tasks) = false
    /\ dict_get i (fst (complete_task now i w)).(planner).(completed)
       = Some (set_completed_at (Some now) t)
    /\ (fst (complete_task now i w)).(planner).(xp) = w.(planner).(xp) + 20
    /\ (fst (complete_task now i w)).(planner).(level)
       = (fst (complete_task now i w)).(planner).(xp) / 100 + 1.
Proof.
  intros Hr Hi. destruct (reachable_inv w Hr) as [Hinv _].
  destruct w as [[ts cs n x lv ach] st].
  unfold planner_inv in Hinv. rewrite planner_wf_In in Hinv. simpl in *.
  destruct Hinv as ((Hnt & Hnc & Hdis) & _ & Hx & Hlv).
  unfold dict_mem in Hi. destruct (dict_get i ts) as [t|] eqn:Ht; [|discriminate].
  exists t. split; [reflexivity|].
  unfold complete_task. simpl. rewrite Ht.
  assert (Hle : x / XP_TO_LEVEL <= (x + XP_PER_TASK) / XP_TO_LEVEL)
    by (apply Z.div_le_mono; unfold XP_PER_TASK, XP_TO_LEVEL; lia).
  unfold XP_TO_LEVEL, XP_PER_TASK in *.
  destruct (Z.gtb_spec ((x + 20) / 100 + 1) lv) as [Hgt | Hng]; simpl;
    (split_and!;
      [ f_equal; match goal with |- _ = (?a >? ?b) =>
          destruct (Z.gtb_spec a b); first [reflexivity | lia] end
      | unfold dict_mem; rewrite dict_get_pop_eq by exact Hnt; reflexivity
      | apply dict_get_set_eq
      | reflexivity
      | lia ]).
Qed.

Lemma complete_pending_ok_witness :
  reachable (run fresh_world [OpAdd "t0" "A" "General" None 3 ""])
  /\ dict_mem 1 (run fresh_world [OpAdd "t0" "A" "General" None 3 ""]).(planner).(tasks) = true
  /\ exists t, dict_get 1 (run fresh_world [OpAdd "t0" "A" "General" None 3 ""]).(planner).(tasks)
                = Some t /\ True.
Proof.
  assert (Hr : reachable (run fresh_world [OpAdd "t0" "A" "General" None 3 ""]))
    by (apply reachable_run, reachable_fresh).
  assert (Hm : dict_mem 1 (run fresh_world [OpAdd "t0" "A" "General" None 3 ""]).(planner).(tasks)
               = true) by reflexivity.
  split; [exact Hr|]. split; [exact Hm|].
  destruct (complete_pending_ok "t1" 1 _ Hr Hm) as (t & Ht & _).
  exists t. split; [exact Ht | exact I].
Defined.

(** ** Achievements *)

Lemma add_if_spec (c : bool) (name x : string) (a : gset string) :
  x ∈ add_if c name a <-> x ∈ a \/ (c = true /\ x = name).
Proof.
  unfold add_if. destruct c; simpl.
  - case_bool_decide; simpl; set_solver.
  - intuition congruence.
Qed.

Lemma fold_milestones_spec (n : Z) (ms : list (Z * string)) (a : gset string) (x : string) :
  x ∈ fold_left (fun a '(k, name) => add_if (n >=? k) name a) ms a
  <-> x ∈ a \/ exists k, In (k, x) ms /\ k <= n.
Proof.
  revert a. induction ms as [|[k name] ms IH]; intros a; simpl.
  - split; [auto|]. intros [H | (k & [] & _)]. exact H.
  - rewrite IH, add_if_spec. split.
    + intros [[H | [Hc ->]] | (k' & Hk' & Hle)]; auto.
      * right. exists k. split; [auto|]. apply Z.geb_le in Hc. lia.
      * right. exists k'. auto.
    + intros [H | (k' & [[= -> ->] | Hk'] & Hle)]; auto.
      * left. right. split; [apply Z.geb_le; lia | reflexivity].
      * right. exists k'. auto.
Qed.

Lemma milestone_name_unique (k k' : Z) (name : string) :
  In (k, name) milestones -> In (k', name) milestones -> k = k'.
Proof.
  unfold milestones. simpl.
  intros H1 H2; repeat destruct H1 as [H1 | H1]; repeat destruct H2 as [H2 | H2];
    try contradiction; congruence.
Qed.

Lemma check_achievements_milestone (p : Planner) (k : Z) (name : string) :
  In (k, name) milestones ->
  name ∈ check_achievements p
  <-> name ∈ p.(achievements) \/ k <= Z.of_nat (length p.(completed)).
Proof.
  intros Hk. unfold check_achievements. rewrite !add_if_spec, fold_milestones_spec.
  assert (Hl : name <> "Level 2 Achieved" /\ name <> "Level 5 Achieved").
  { unfold milestones in Hk. simpl in Hk.
    repeat destruct Hk as [Hk | Hk]; try contradiction; injection Hk as _ <-;
      split; discriminate. }
  split.
  - intros [[[H | (k' & Hk' & Hle)] | [_ ?]] | [_ ?]]; try tauto.
    right. rewrite (milestone_name_unique k k' name Hk Hk'). exact Hle.
  - intros [H | H]; left; left; [left; exact H|right; exists k; auto].
Qed.

Lemma check_achievements_sub (p : Planner) : p.(achievements) ⊆ check_achievements p.
Proof.
  intros x Hx. unfold check_achievements. rewrite !add_if_spec, fold_milestones_spec. tauto.
Qed.

Lemma length_dict_update {V} (k : Z) (f : V -> V) (d : dict V) :
  length (dict_update k f d) = length d.
Proof.
  rewrite <- (length_map fst), <- (length_map fst d).
  exact (f_equal (@length Z) (keys_dict_update k f d)).
Qed.

(** One call either leaves the achievements alone and does not add a
    completed task, or is a successful completion, whose achievements
    are [check_achievements] of the planner with the task moved. *)
Lemma step_achievements (o : op) (w : World) :
  ((step o w).(planner).(achievements) = w.(planner).(achievements)
   /\ (length (step o w).(planner).(completed) <= length w.(planner).(completed))%nat
   /\ (is_delete o = false ->
       length (step o w).(planner).(completed) = length w.(planner).(completed)))
  \/ exists p1, (step o w).(planner).(achievements) = check_achievements p1
       /\ p1.(achievements) = w.(planner).(achievements)
       /\ p1.(completed) = (step o w).(planner).(completed)
       /\ (length w.(planner).(completed) <= length p1.(completed))%nat.
Proof.
  destruct w as [[ts cs n x lv ach] st].
  destruct o as [now ti ca du pr no | i | i kws | now i | | |]; simpl; try (left; auto; fail).
  - left. unfold delete_task. simpl.
    destruct (dict_mem i ts); [|destruct (dict_mem i cs)]; simpl;
      split_and!; auto using length_dict_pop_le; discriminate.
  - left. unfold edit_task. simpl.
    destruct (get_task i _); simpl; [|auto].
    destruct (dict_mem i ts); simpl; rewrite ?length_dict_update; auto.
  - unfold complete_task. simpl.
    destruct (dict_get i ts) as [t|]; simpl; [|left; auto].
    right. destruct (_ >? _); simpl; eexists; split_and!; try reflexivity; simpl;
      rewrite length_dict_set; destruct (in_dec _ _ _); lia.
Qed.

Lemma peak_completed_ge (ops : list op) (w : World) :
  Z.of_nat (length w.(planner).(completed)) <= peak_completed w ops.
Proof. destruct ops; simpl; lia. Qed.

Lemma achievements_peak_run (ops : list op) (w : World) (m : Z) :
  (forall k name, In (k, name) milestones ->
     name ∈ w.(planner).(achievements) <-> k <= m) ->
  Z.of_nat (length w.(planner).(completed)) <= m ->
  forall k name, In (k, name) milestones ->
    name ∈ (run w ops).(planner).(achievements) <-> k <= Z.max m (peak_completed w ops).
Proof.
  revert w m. induction ops as [|o ops IH]; intros w m Hach Hlen k name Hk; simpl.
  - rewrite (Hach k name Hk). lia.
  - set (m' := Z.max m (Z.of_nat (length (step o w).(planner).(completed)))).
    assert (Hach' : forall k name, In (k, name) milestones ->
              name ∈ (step o w).(planner).(achievements) <-> k <= m').
    { intros k' name' Hk'. unfold m'.
      destruct (step_achievements o w) as [(-> & Hle & _) | (p1 & -> & Ha & Hc & _)].
      - rewrite (Hach k' name' Hk'). lia.
      - rewrite (check_achievements_milestone p1 k' name' Hk'), Ha, Hc, (Hach k' name' Hk').
        lia. }
    rewrite (IH (step o w) m' Hach' ltac:(unfold m'; lia) k name Hk).
    pose proof (peak_completed_ge ops (step o w)). unfold m'. lia.
Qed.

Lemma peak_completed_no_delete (ops : list op) (w : World) :
  forallb (fun o => negb (is_delete o)) ops = true ->
  peak_completed w ops = Z.of_nat (length (run w ops).(planner).(completed)).
Proof.
  revert w. induction ops as [|o ops IH]; intros w Hnd; simpl; [reflexivity|].
  simpl in Hnd. apply andb_prop in Hnd as [Ho Hnd].
  rewrite <- IH by exact Hnd.
  pose proof (peak_completed_ge ops (step o w)).
  destruct (step_achievements o w) as [(_ & _ & Heq) | (p1 & _ & _ & Hc & Hle)].
  - rewrite Heq in H by (destruct (is_delete o); [discriminate|reflexivity]). lia.
  - rewrite Hc in Hle. lia.
Qed.

(** C5 (amended): from a fresh start, after any sequence of calls, a
    completion milestone's name is in [achievements] iff its threshold is
    at most the largest number of completed tasks seen so far, which is
    the current number when no task was deleted; no call removes an
    achievement. *)
Theorem achievements_follow_peak (ops : list op) :
  (forall k name, In (k, name) milestones ->
     name ∈ (run fresh_world ops).(planner).(achievements)
     <-> k <= peak_completed fresh_world ops)
  /\ (forall o w, w.(planner).(achievements) ⊆ (step o w).(planner).(achievements))
  /\ (forallb (fun o => negb (is_delete o)) ops = true ->
      peak_completed fresh_world ops
      = Z.of_nat (length (run fresh_world ops).(planner).(completed))).
Proof.
  split_and!.
  - intros k name Hk.
    rewrite (achievements_peak_run ops fresh_world 0); [| |simpl; lia|exact Hk].
    + pose proof (peak_completed_ge ops fresh_world). lia.
    + intros k' name' Hk'. simpl. split; [set_solver|].
      unfold milestones in Hk'. simpl in Hk'.
      repeat destruct Hk' as [Hk' | Hk']; try contradiction; injection Hk' as <- _; lia.
  - intros o w x Hx.
    destruct (step_achievements o w) as [(-> & _) | (p1 & -> & Ha & _)]; [exact Hx|].
    apply check_achievements_sub. rewrite Ha. exact Hx.
  - apply peak_completed_no_delete.
Qed.

(** C5 fails as stated: five tasks completed, then deleted, then one
    more completed: one task is completed and "Getting Serious" (five)
    is present. *)
Lemma achievement_kept_after_delete :
  let w := run fresh_world
    [OpAdd "t" "a" "G" None 3 ""; OpAdd "t" "b" "G" None 3 ""; OpAdd "t" "c" "G" None 3 "";
     OpAdd "t" "d" "G" None 3 ""; OpAdd "t" "e" "G" None 3 "";
     OpComplete "t" 1; OpComplete "t" 2; OpComplete "t" 3; OpComplete "t" 4; OpComplete "t" 5;
     OpDelete 1; OpDelete 2; OpDelete 3; OpDelete 4; OpDelete 5;
     OpAdd "t" "f" "G" None 3 ""; OpComplete "t" 6] in
  length w.(planner).(completed) = 1%nat
  /\ bool_decide ("Getting Serious" ∈ w.(planner).(achievements)) = true.
Proof. vm_compute. split; reflexivity. Qed.

(** ** Further properties of the engine *)

Lemma dict_get_pop_ne {V} (i j : Z) (d : dict V) :
  j <> i -> dict_get j (dict_pop i d) = dict_get j d.
Proof.
  intros Hne. induction d as [|[k v] d IH]; simpl; [reflexivity|].
  destruct (Z.eq_dec i k) as [<-|Hik]; simpl.
  - destruct (Z.eq_dec j i); [congruence|reflexivity].
  - destruct (Z.eq_dec j k); [reflexivity|exact IH].
Qed.

Lemma inv_get_fresh (p : Planner) (j : Z) :
  planner_inv p -> p.(next_id) <= j -> dict_get j p.(tasks) = None /\ dict_get j p.(completed) = None.
Proof.
  intros (_ & Hlt & _) Hj. split; apply dict_get_None; intros Hin;
    specialize (Hlt j ltac:(apply in_or_app; auto)); lia.
Qed.

(** [add_task] on a reachable planner returns [next_id], which no task
    had; [get_task] then finds the new task under it, with that id, not
    completed and created now; every other id finds what it found
    before, and only [next_id] (by one) changes among the counters. *)
Theorem add_task_get_task (now ti ca : string) (du : option string) (pr : Z) (no : string)
    (w : World) :
  reachable w ->
  let n := w.(planner).(next_id) in
  let w' := fst (add_task now ti ca du pr no w) in
  snd (add_task now ti ca du pr no w) = n
  /\ get_task n w.(planner) = None
  /\ get_task n w'.(planner) = Some (mkTask (Some n) ti ca du pr no now None)
  /\ (forall j, j <> n -> get_task j w'.(planner) = get_task j w.(planner))
  /\ w'.(planner).(next_id) = n + 1
  /\ w'.(planner).(xp) = w.(planner).(xp) /\ w'.(planner).(level) = w.(planner).(level)
  /\ w'.(planner).(achievements) = w.(planner).(achievements).
Proof.
  intros Hr. destruct (reachable_inv w Hr) as [Hinv _].
  destruct (inv_get_fresh _ (w.(planner).(next_id)) Hinv ltac:(lia)) as [Ht Hc].
  destruct w as [[ts cs n x lv ach] st]. simpl in *.
  unfold get_task. simpl. rewrite Ht, Hc, dict_get_set_eq.
  split_and!; try reflexivity.
  intros j Hj. rewrite dict_get_set_ne by exact Hj. reflexivity.
Qed.

Lemma add_task_get_task_witness :
  reachable fresh_world
  /\ get_task 1 (fst (add_task "t0" "Read" "Study" None 2 "" fresh_world)).(planner)
     = Some (mkTask (Some 1) "Read" "Study" None 2 "" "t0" None).
Proof.
  split; [exact reachable_fresh|].
  apply (add_task_get_task "t0" "Read" "Study" None 2 "" fresh_world reachable_fresh).
Defined.

(** [delete_task i] on a reachable planner returns what [get_task i]
    returned; afterwards [get_task i] finds nothing, every other id
    finds what it found before, and [next_id], [xp], [level] and the
    achievements are unchanged: deleting a completed task takes no XP
    back. *)
Theorem delete_task_get_task (i : Z) (w : World) :
  reachable w ->
  let w' := fst (delete_task i w) in
  snd (delete_task i w) = get_task i w.(planner)
  /\ get_task i w'.(planner) = None
  /\ (forall j, j <> i -> get_task j w'.(planner) = get_task j w.(planner))
  /\ w'.(planner).(next_id) = w.(planner).(next_id)
  /\ w'.(planner).(xp) = w.(planner).(xp) /\ w'.(planner).(level) = w.(planner).(level)
  /\ w'.(planner).(achievements) = w.(planner).(achievements).
Proof.
  intros Hr. destruct (reachable_inv w Hr) as [Hinv _].
  destruct w as [[ts cs n x lv ach] st].
  unfold planner_inv in Hinv. rewrite planner_wf_In in Hinv.
  simpl in *. destruct Hinv as ((Hnt & Hnc & Hdis) & _).
  unfold delete_task, get_task. simpl.
  destruct (dict_mem i ts) eqn:Eit; [|destruct (dict_mem i cs) eqn:Eic]; simpl.
  - apply dict_mem_In in Eit.
    assert (Hci : dict_get i cs = None) by (apply dict_get_None, Hdis, Eit).
    destruct (dict_get i ts) as [t|] eqn:Ht;
      [|apply dict_get_None in Ht; contradiction].
    rewrite dict_get_pop_eq by exact Hnt. split_and!; try reflexivity; [exact Hci|].
    intros j Hj. rewrite dict_get_pop_ne by exact Hj. reflexivity.
  - apply dict_mem_false in Eit. apply dict_get_None in Eit as Hti. rewrite Hti.
    rewrite dict_get_pop_eq by exact Hnc. split_and!; try reflexivity.
    intros j Hj. rewrite dict_get_pop_ne by exact Hj. reflexivity.
  - apply dict_mem_false in Eit, Eic. apply dict_get_None in Eit, Eic.
    rewrite Eit, Eic. split_and!; reflexivity.
Qed.

Lemma delete_task_get_task_witness :
  reachable (run fresh_world [OpAdd "t0" "A" "General" None 3 ""; OpComplete "t1" 1])
  /\ get_task 1 (fst (delete_task 1
       (run fresh_world [OpAdd "t0" "A" "General" None 3 ""; OpComplete "t1" 1]))).(planner)
     = None.
Proof.
  assert (Hr : reachable (run fresh_world [OpAdd "t0" "A" "General" None 3 "";
                                           OpComplete "t1" 1]))
    by (apply reachable_run, reachable_fresh).
  split; [exact Hr|]. apply (delete_task_get_task 1 _ Hr).
Defined.

Lemma check_achievements_level (p : Planner) (name : string) (n : Z) :
  (name = "Level 2 Achieved" /\ n = 2) \/ (name = "Level 5 Achieved" /\ n = 5) ->
  name ∈ check_achievements p <-> name ∈ p.(achievements) \/ n <= p.(level).
Proof.
  intros Hn. unfold check_achievements. rewrite !add_if_spec, fold_milestones_spec.
  assert (Hm : forall k, ~ In (k, name) milestones).
  { intros k Hk. unfold milestones in Hk. simpl in Hk.
    destruct Hn as [[-> _] | [-> _]];
      repeat destruct Hk as [Hk | Hk]; try contradiction; discriminate. }
  destruct Hn as [[-> ->] | [-> ->]]; split.
  - intros [[[H | (k & Hk & _)] | [Hc _]] | [_ Hc]];
      [tauto | destruct (Hm k Hk) | apply Z.geb_le in Hc; tauto | discriminate].
  - intros [H | H]; [tauto|]. left; right. split; [apply Z.geb_le; lia|reflexivity].
  - intros [[[H | (k & Hk & _)] | [_ Hc]] | [Hc _]];
      [tauto | destruct (Hm k Hk) | discriminate | apply Z.geb_le in Hc; tauto].
  - intros [H | H]; [tauto|]. right. split; [apply Z.geb_le; lia|reflexivity].
Qed.

Lemma step_level_achievements (o : op) (w : World) :
  ((step o w).(planner).(achievements) = w.(planner).(achievements)
   /\ (step o w).(planner).(level) = w.(planner).(level))
  \/ exists p1, (step o w).(planner).(achievements) = check_achievements p1
       /\ p1.(achievements) = w.(planner).(achievements)
       /\ p1.(level) = (step o w).(planner).(level)
       /\ w.(planner).(level) <= p1.(level).
Proof.
  destruct w as [[ts cs n x lv ach] st].
  destruct o as [now ti ca du pr no | i | i kws | now i | | |]; simpl; try (left; auto; fail).
  - left. unfold delete_task. simpl.
    destruct (dict_mem i ts); [|destruct (dict_mem i cs)]; simpl; auto.
  - left. unfold edit_task. simpl.
    destruct (get_task i _); simpl; [|auto].
    destruct (dict_mem i ts); simpl; auto.
  - unfold complete_task. simpl.
    destruct (dict_get i ts) as [t|]; simpl; [|left; auto].
    right. destruct (Z.gtb_spec ((x + XP_PER_TASK) / XP_TO_LEVEL + 1) lv); simpl;
      eexists; split_and!; try reflexivity; simpl; lia.
Qed.

Lemma step_level_badges (o : op) (w : World) :
  ("Level 2 Achieved" ∈ w.(planner).(achievements) <-> 2 <= w.(planner).(level)) ->
  ("Level 5 Achieved" ∈ w.(planner).(achievements) <-> 5 <= w.(planner).(level)) ->
  ("Level 2 Achieved" ∈ (step o w).(planner).(achievements) <-> 2 <= (step o w).(planner).(level))
  /\ ("Level 5 Achieved" ∈ (step o w).(planner).(achievements)
      <-> 5 <= (step o w).(planner).(level)).
Proof.
  intros H2 H5.
  destruct (step_level_achievements o w) as [[-> ->] | (p1 & -> & Ha & Hl & Hle)];
    [auto|].
  rewrite (check_achievements_level p1 "Level 2 Achieved" 2 ltac:(auto)),
    (check_achievements_level p1 "Level 5 Achieved" 5 ltac:(auto)), Ha, <- Hl.
  rewrite H2, H5. lia.
Qed.

Lemma reachable_level_badges (w : World) :
  reachable w ->
  (("Level 2 Achieved" ∈ w.(planner).(achievements) <-> 2 <= w.(planner).(level))
   /\ ("Level 5 Achieved" ∈ w.(planner).(achievements) <-> 5 <= w.(planner).(level)))
  /\ exists q, w.(storage) = FJson (save_json q) /\ planner_wf q
     /\ ("Level 2 Achieved" ∈ q.(achievements) <-> 2 <= q.(level))
     /\ ("Level 5 Achieved" ∈ q.(achievements) <-> 5 <= q.(level)).
Proof.
  induction 1 as [now st w Hst Hl | o w Hr [[H2 H5] (q & Hq & Hqw & Hq2 & Hq5)]
                 | now w w' _ [_ (q & Hq & Hqw & Hq2 & Hq5)] Hl].
  - rewrite load_unreadable in Hl by exact Hst. injection Hl as <-. simpl.
    assert (Hd : ("Level 2 Achieved" ∈ (∅ : gset string) <-> 2 <= 1)
                 /\ ("Level 5 Achieved" ∈ (∅ : gset string) <-> 5 <= 1))
      by (split; split; [set_solver|lia|set_solver|lia]).
    split; [exact Hd|]. exists default_planner. split_and!; try apply Hd; try reflexivity.
    apply (proj1 inv_default).
  - split; [apply step_level_badges; assumption|].
    destruct (step_storage o w) as [-> | ->].
    + exists q. auto.
    + exists (step o w).(planner). split_and!; try reflexivity;
        [exact (proj1 (proj1 (reachable_inv _ (reach_step o w Hr))))
        | apply step_level_badges; assumption..].
  - rewrite Hq, load_saved in Hl by exact Hqw. injection Hl as <-. simpl.
    split; [auto|]. exists q. auto.
Qed.

(** In every reachable world, "Level 2 Achieved" is an achievement
    exactly when [level] is at least 2, and "Level 5 Achieved" exactly
    when it is at least 5. *)
Theorem level_achievements_exact (w : World) :
  reachable w ->
  ("Level 2 Achieved" ∈ w.(planner).(achievements) <-> 2 <= w.(planner).(level))
  /\ ("Level 5 Achieved" ∈ w.(planner).(achievements) <-> 5 <= w.(planner).(level)).
Proof. intros Hr. exact (proj1 (reachable_level_badges w Hr)). Qed.

Lemma level_achievements_exact_witness :
  let w := run fresh_world
    [OpAdd "t" "a" "G" None 3 ""; OpAdd "t" "b" "G" None 3 ""; OpAdd "t" "c" "G" None 3 "";
     OpAdd "t" "d" "G" None 3 ""; OpAdd "t" "e" "G" None 3 "";
     OpComplete "t" 1; OpComplete "t" 2; OpComplete "t" 3; OpComplete "t" 4;
     OpComplete "t" 5] in
  reachable w
  /\ ("Level 2 Achieved" ∈ w.(planner).(achievements) <-> 2 <= w.(planner).(level)).
Proof.
  intros w. assert (Hr : reachable w) by (apply reachable_run, reachable_fresh).
  split; [exact Hr|]. apply (level_achievements_exact w Hr).
Defined.

Lemma str_contains_empty (s : string) : str_contains "" s = true.
Proof. destruct s; reflexivity. Qed.

(** [search_tasks("")] returns every task: the pending ones, then the
    completed ones, each in its dict's order ([cmd_search] refuses an
    empty keyword before calling it). *)
Theorem search_tasks_empty_keyword (p : Planner) :
  search_tasks "" p = p.(tasks) ++ p.(completed).
Proof.
  unfold search_tasks. simpl.
  assert (Hf : forall l : dict Task, List.filter (fun '(_, t) => search_match "" t) l = l).
  { induction l as [|[k t] l IH]; simpl; [reflexivity|].
    unfold search_match. rewrite str_contains_empty. simpl. f_equal. exact IH. }
  rewrite !Hf. reflexivity.
Qed.







(** [Task.from_dict(t.to_dict())], with [t.id = d.get("id")], gives back
    [t] field for field. *)
Theorem task_from_dict_to_dict (now : string) (t : Task) :
  dbind (task_from_json now (task_to_json t))
    (fun '(raw, t') => dmap (fun i => set_id i t') (dec_opt_int raw))
  = DOk t.
Proof.
  rewrite task_roundtrip. destruct t as [[i|] ti ca du pr no cr co]; reflexivity.
Qed.

(** [Task.from_dict] on an object with a string "title" and none of the
    other seven keys gives the constructor's defaults: category
    "General", no due date, priority 3, empty notes, [created_at] the
    time of loading, not completed, and a raw id of [None]. *)
Theorem task_from_dict_defaults (now s : string) (o : list (string * json)) :
  sdict_get "title" (json_dict o) = Some (JStr s) ->
  Forall (fun k => sdict_get k (json_dict o) = None)
    ["id"; "category"; "due_date"; "priority"; "notes"; "created_at"; "completed_at"] ->
  task_from_json now (JObj o) = DOk (JNull, Task_new now s "General" None 3 "").
Proof.
  intros Ht Hk. rewrite Forall_forall in Hk.
  unfold task_from_json, dget. cbv zeta. rewrite Ht.
  rewrite !Hk by (apply list_elem_of_In; simpl; tauto). reflexivity.
Qed.

Lemma task_from_dict_defaults_witness :
  task_from_json "t0" (JObj [("title", JStr "Read"); ("tag", JInt 1)])
  = DOk (JNull, Task_new "t0" "Read" "General" None 3 "").
Proof.
  apply (task_from_dict_defaults "t0" "Read" [("title", JStr "Read"); ("tag", JInt 1)]).
  - vm_compute. reflexivity.
  - repeat constructor.
Defined.

Lemma insert_str_perm (x : string) (l : list string) : Permutation (insert_str x l) (x :: l).
Proof.
  induction l as [|y l IH]; simpl; [reflexivity|].
  destruct (String.leb x y); [reflexivity|].
  rewrite IH. apply perm_swap.
Qed.

Lemma sort_strings_perm (l : list string) : Permutation (sort_strings l) l.
Proof.
  induction l as [|x l IH]; simpl; [reflexivity|].
  rewrite insert_str_perm, IH. reflexivity.
Qed.

Lemma insert_str_sorted (x : string) (l : list string) :
  Sorted (fun a b => String.leb a b = true) l ->
  Sorted (fun a b => String.leb a b = true) (insert_str x l).
Proof.
  induction 1 as [|y l Hs IH Hhd]; simpl; [repeat constructor|].
  destruct (String.leb x y) eqn:E.
  - constructor; [constructor; assumption|constructor; exact E].
  - assert (Hyx : String.leb y x = true)
      by (destruct (String.leb_total x y); congruence).
    constructor; [exact IH|].
    destruct l as [|z l]; simpl; [constructor; exact Hyx|].
    inversion Hhd; subst.
    destruct (String.leb x z); constructor; assumption.
Qed.

(** [stats_summary]: [total] is [pending + completed], and the
    achievements come as a list in ascending order, each achievement
    once. *)
Theorem stats_summary_shape (p : Planner) :
  let s := stats_summary p in
  s.(st_total) = s.(st_pending) + s.(st_completed)
  /\ s.(st_pending) = Z.of_nat (length p.(tasks))
  /\ s.(st_completed) = Z.of_nat (length p.(completed))
  /\ Sorted (fun a b => String.leb a b = true) s.(st_achievements)
  /\ NoDup s.(st_achievements)
  /\ (forall a, In a s.(st_achievements) <-> a ∈ p.(achievements)).
Proof.
  simpl. split_and!; try reflexivity.
  - unfold sort_strings. induction (elements p.(achievements)); simpl;
      [constructor | apply insert_str_sorted; assumption].
  - rewrite (sort_strings_perm _). apply NoDup_elements.
  - intros a. rewrite (sort_strings_perm _), <- list_elem_of_In. apply elem_of_elements.
Qed.

(** In a reachable world, the "XP: xp / level * 100" line of [cmd_stats]
    shows an XP below the bound, the XP still needed is between 1 and 100
    and equals 100 minus the progress [xp % 100] drawn in the bar. *)
Theorem stats_xp_to_next (w : World) :
  reachable w ->
  let s := stats_summary w.(planner) in
  0 <= s.(st_xp) < s.(st_level) * XP_TO_LEVEL
  /\ s.(st_level) * XP_TO_LEVEL - s.(st_xp) = XP_TO_LEVEL - s.(st_xp) mod XP_TO_LEVEL
  /\ 0 < s.(st_level) * XP_TO_LEVEL - s.(st_xp) <= XP_TO_LEVEL.
Proof.
  intros Hr. destruct (reachable_inv w Hr) as [(_ & _ & Hx & Hlv) _].
  simpl. rewrite Hlv. unfold XP_TO_LEVEL.
  pose proof (Z.div_mod (w.(planner).(xp)) 100 ltac:(lia)).
  pose proof (Z.mod_pos_bound (w.(planner).(xp)) 100 ltac:(lia)).
  split_and!; lia.
Qed.

Lemma stats_xp_to_next_witness :
  let w := run fresh_world [OpAdd "t" "a" "G" None 3 ""; OpComplete "t" 1] in
  reachable w
  /\ (stats_summary w.(planner)).(st_level) * XP_TO_LEVEL - (stats_summary w.(planner)).(st_xp)
     = XP_TO_LEVEL - (stats_summary w.(planner)).(st_xp) mod XP_TO_LEVEL.
Proof.
  intros w. assert (Hr : reachable w) by (apply reachable_run, reachable_fresh).
  split; [exact Hr|]. apply (stats_xp_to_next w Hr).
Defined.

(** ** The console layer *)

(** A result the hypothesis equates with a different constructor. *)
Ltac no_such_result :=
  repeat intro; match goal with H : _ = _ |- _ => solve [inversion H] end.

(** [prompt_priority] returns a priority from 1 to 5, 3 for an empty
    line; a line that is not such a number is asked again, so it never
    lets out a [ValueError]: the exceptions that leave it are [EOFError]
    when the input ends before the recursion limit is reached, and
    [RecursionError] when more lines than [room] are rejected. *)
Theorem prompt_priority_range (room : nat) (ins : list string) :
  (forall p r, prompt_priority_in room ins = (inl p, r) -> 1 <= p <= 5)
  /\ fst (prompt_priority_in room ins) <> inr ValueError
  /\ (fst (prompt_priority_in room ins) = inr EOFError -> (length ins <= room)%nat)
  /\ (fst (prompt_priority_in room ins) = inr RecursionError -> (room < length ins)%nat)
  /\ (forall r, prompt_priority_in (S room) ("" :: r) = (inl 3, r)).
Proof.
  assert (H : forall room ins,
    (forall p r, prompt_priority_in room ins = (inl p, r) -> 1 <= p <= 5)
    /\ fst (prompt_priority_in room ins) <> inr ValueError
    /\ (fst (prompt_priority_in room ins) = inr EOFError -> (length ins <= room)%nat)
    /\ (fst (prompt_priority_in room ins) = inr RecursionError -> (room < length ins)%nat)).
  { intros room0 ins0. revert room0.
    induction ins0 as [|s ins1 IH]; intros room0.
    - destruct room0; simpl; split_and!; solve [no_such_result | intros _; lia].
    - destruct room0 as [|room']; simpl; [split_and!; [no_such_result|no_such_result|no_such_result|intros _; lia]|].
      destruct (IH room') as (I1 & I2 & I3 & I4).
      destruct (py_int_of_str (py_or s "3")) as [q|].
      + destruct (Z.ltb_spec q 1); destruct (Z.gtb_spec q 5); simpl;
          try (split_and!; [exact I1|exact I2|intros E; specialize (I3 E); lia
                           |intros E; specialize (I4 E); lia]).
        split_and!; [intros p r [= <- _]; lia|no_such_result|no_such_result|no_such_result].
      + split_and!; [exact I1|exact I2|intros E; specialize (I3 E); lia
                    |intros E; specialize (I4 E); lia]. }
  destruct (H room ins) as (H1 & H2 & H3 & H4). split_and!; auto.
Qed.

(** [prompt_date] returns [None] for a blank line, or a stripped,
    non-empty line that [date.fromisoformat] accepts; other lines are
    asked again, so it never lets out a [ValueError]; a
    [RecursionError] comes only once [room] lines have been read. *)
Theorem prompt_date_result (date_ok : string -> bool) (room : nat) (ins : list string) :
  (forall d r, prompt_date_in date_ok room ins = (inl (Some d), r) ->
     date_ok d = true /\ d <> "" /\ exists s0, In s0 ins /\ d = py_strip s0)
  /\ (forall r, prompt_date_in date_ok room ins = (inl None, r) ->
        exists s0, In s0 ins /\ py_strip s0 = "")
  /\ (forall s0 r, py_strip s0 = "" -> prompt_date_in date_ok (S room) (s0 :: r) = (inl None, r))
  /\ fst (prompt_date_in date_ok room ins) <> inr ValueError
  /\ (fst (prompt_date_in date_ok room ins) = inr RecursionError -> (room <= length ins)%nat).
Proof.
  assert (H : forall room ins,
    (forall d r, prompt_date_in date_ok room ins = (inl (Some d), r) ->
       date_ok d = true /\ d <> "" /\ exists s0, In s0 ins /\ d = py_strip s0)
    /\ (forall r, prompt_date_in date_ok room ins = (inl None, r) ->
          exists s0, In s0 ins /\ py_strip s0 = "")
    /\ fst (prompt_date_in date_ok room ins) <> inr ValueError
    /\ (fst (prompt_date_in date_ok room ins) = inr RecursionError -> (room <= length ins)%nat)).
  { intros room0 ins0. revert ins0.
    induction room0 as [|room' IH]; intros ins0; simpl.
    - split_and!; [no_such_result|no_such_result|no_such_result|intros _; lia].
    - destruct ins0 as [|s ins1]; simpl; [split_and!; [no_such_result|no_such_result|no_such_result|no_such_result]|].
      destruct (IH ins1) as (I1 & I2 & I3 & I4).
      destruct (String.eqb_spec (py_strip s) "") as [He|Hne].
      { split_and!; [no_such_result| |no_such_result|no_such_result].
        intros r _. exists s. auto. }
      destruct (date_ok (py_strip s)) eqn:Ed.
      + split_and!; [|no_such_result|no_such_result|no_such_result].
        intros d r [= <- _]. split_and!; [exact Ed|exact Hne|]. exists s. auto.
      + split_and!.
        * intros d r Hd. destruct (I1 d r Hd) as (Hd1 & Hd2 & s0 & Hs0 & ->).
          split_and!; auto. exists s0. auto.
        * intros r Hd. destruct (I2 r Hd) as (s0 & Hs0 & Hb). exists s0. auto.
        * exact I3.
        * intros E. specialize (I4 E). simpl. lia. }
  destruct (H room ins) as (H1 & H2 & H3 & H4). split_and!; auto.
  intros s0 r Hb. simpl. rewrite Hb. reflexivity.
Qed.

Lemma py_or_nonempty (s d : string) : d <> "" -> py_or s d <> "".
Proof. unfold py_or. destruct (String.eqb_spec s ""); auto. Qed.

Lemma wait_enter_world (c : console) :
  (snd (wait_enter c)).(cworld) = c.(cworld) /\ fst (wait_enter c) <> inr ValueError.
Proof. destruct c as [w [|s r]]; split; try reflexivity; discriminate. Qed.

(** [cmd_add] adds at most one task, and only with the stripped first
    answer as its title, which is not empty, the stripped second answer
    as its category, or "General" when that is blank, a priority from 1
    to 5, and no due date or a non-empty one that [date.fromisoformat]
    accepts; it never raises [ValueError]. *)
Theorem cmd_add_effect (date_ok : string -> bool) (now : string) (date_room prio_room : nat)
    (c : console) :
  fst (cmd_add date_ok now date_room prio_room c) <> inr ValueError
  /\ ((snd (cmd_add date_ok now date_room prio_room c)).(cworld) = c.(cworld)
      \/ exists s1 s2 rest du pr no,
           c.(cins) = s1 :: s2 :: rest
           /\ (snd (cmd_add date_ok now date_room prio_room c)).(cworld)
              = fst (add_task now (py_strip s1) (py_or (py_strip s2) "General") du pr no
                       c.(cworld))
           /\ py_strip s1 <> "" /\ 1 <= pr <= 5
           /\ (du = None \/ exists d, du = Some d /\ date_ok d = true /\ d <> "")).
Proof.
  destruct c as [w ins]. unfold cmd_add, cbind, input, prompt_date, prompt_priority, planner_call.
  cbn [cins cworld].
  destruct ins as [|s1 r1]; [split; [discriminate|left; reflexivity]|].
  cbn [cins cworld].
  destruct (String.eqb_spec (py_strip s1) "") as [He|Hne].
  { destruct (wait_enter_world (mkConsole w r1)) as [Hw Hv]. split; [exact Hv|left; exact Hw]. }
  destruct r1 as [|s2 r2]; [split; [discriminate|left; reflexivity]|].
  cbn [cins cworld].
  pose proof (prompt_date_result date_ok date_room r2) as (D1 & _ & _ & D4 & _).
  destruct (prompt_date_in date_ok date_room r2) as [[od|e] r3] eqn:Hd;
    [|split; [|left; reflexivity]; destruct e; [discriminate| |discriminate];
      cbn [fst] in D4; exfalso; apply D4; reflexivity].
  cbn [cins cworld].
  pose proof (prompt_priority_range prio_room r3) as (P1 & P2 & _).
  destruct (prompt_priority_in prio_room r3) as [[pr|e] r4] eqn:Hp;
    [|split; [|left; reflexivity]; destruct e; [discriminate| |discriminate];
      cbn [fst] in P2; exfalso; apply P2; reflexivity].
  destruct r4 as [|s5 r5]; [split; [discriminate|left; reflexivity]|].
  cbn [cins cworld].
  destruct (add_task now (py_strip s1) (py_or (py_strip s2) "General") od pr (py_strip s5) w)
    as [w' tid] eqn:Ha.
  destruct (wait_enter_world (mkConsole w' r5)) as [Hw Hv]. split; [exact Hv|right].
  exists s1, s2, r2, od, pr, (py_strip s5).
  rewrite Ha. split_and!; [reflexivity | exact Hw | exact Hne
    | exact (proj1 (P1 pr _ eq_refl)) | exact (proj2 (P1 pr _ eq_refl)) |].
  destruct od as [d|]; [right|left; reflexivity].
  destruct (D1 d r3 eq_refl) as (Dok & Dne & _). exists d. auto.
Qed.

(** [cmd_quick_add] adds at most one task, with a non-empty title and the
    defaults of [add_task]: category "General", no due date, priority 3,
    empty notes. *)
Theorem cmd_quick_add_effect (now : string) (c : console) :
  (snd (cmd_quick_add now c)).(cworld) = c.(cworld)
  \/ exists ti, ti <> ""
       /\ (snd (cmd_quick_add now c)).(cworld)
          = fst (add_task now ti "General" None 3 "" c.(cworld)).
Proof.
  destruct c as [w ins]. unfold cmd_quick_add, cbind, input, planner_call.
  cbn [cins cworld].
  destruct ins as [|s1 r1]; [left; reflexivity|]. cbn [cins cworld].
  destruct (String.eqb_spec (py_strip s1) "") as [He|Hne].
  { left. exact (proj1 (wait_enter_world (mkConsole w r1))). }
  cbn [cins cworld].
  destruct (add_task now (py_strip s1) "General" None 3 "" w) as [w' tid] eqn:Ha.
  right. exists (py_strip s1). rewrite Ha. split; [exact Hne|].
  exact (proj1 (wait_enter_world (mkConsole w' r1))).
Qed.







Lemma cbind_shrinks {A B} (m : cmd A) (f : A -> cmd B) :
  shrinks m -> (forall a, shrinks (f a)) -> shrinks (cbind m f).
Proof.
  intros Hm Hf c. unfold cbind. specialize (Hm c).
  destruct (m c) as [[a|e] c'] eqn:E; simpl in *; [|exact Hm].
  specialize (Hf a c'). lia.
Qed.

Lemma input_shrinks : shrinks input.
Proof. intros [w [|s r]]; simpl; lia. Qed.

Lemma cret_shrinks {A} (a : A) : shrinks (cret a).
Proof. intros c. simpl. lia. Qed.

Lemma craise_shrinks {A} (e : pyexc) : shrinks (@craise A e).
Proof. intros c. simpl. lia. Qed.

Lemma get_planner_shrinks : shrinks get_planner.
Proof. intros c. simpl. lia. Qed.

Lemma planner_call_shrinks {A} (f : World -> World * A) : shrinks (planner_call f).
Proof. intros c. unfold planner_call. destruct (f c.(cworld)). simpl. lia. Qed.

Lemma wait_enter_shrinks : shrinks wait_enter.
Proof. apply cbind_shrinks; [exact input_shrinks|intros; apply cret_shrinks]. Qed.

Lemma prompt_priority_shrinks (room : nat) : shrinks (prompt_priority room).
Proof.
  intros [w ins]. unfold prompt_priority. simpl.
  assert (H : forall room l, (length (snd (prompt_priority_in room l)) <= length l)%nat).
  { intros room0 l. revert room0. induction l as [|s l IH]; intros [|room0]; simpl; try lia.
    destruct (py_int_of_str (py_or s "3")) as [q|]; [destruct ((q <? 1) || (q >? 5))|];
      simpl; specialize (IH room0); lia. }
  specialize (H room ins). destruct (prompt_priority_in room ins). simpl in *. exact H.
Qed.

Lemma prompt_date_shrinks (date_ok : string -> bool) (room : nat) :
  shrinks (prompt_date date_ok room).
Proof.
  intros [w ins]. unfold prompt_date. simpl.
  assert (H : forall room l, (length (snd (prompt_date_in date_ok room l)) <= length l)%nat).
  { intros room0. induction room0 as [|room0 IH]; intros [|s l]; simpl; try lia.
    destruct (String.eqb (py_strip s) ""); [simpl; lia|].
    destruct (date_ok (py_strip s)); simpl; [lia|specialize (IH l); lia]. }
  specialize (H room ins). destruct (prompt_date_in date_ok room ins). simpl in *. exact H.
Qed.

Ltac solve_shrinks :=
  cbv zeta;
  repeat match goal with
  | |- shrinks (cbind _ _) => apply cbind_shrinks; [|intros ?]
  | |- shrinks (if ?b then _ else _) => destruct b
  | |- shrinks (match ?x with _ => _ end) => destruct x
  | |- shrinks input => exact input_shrinks
  | |- shrinks wait_enter => exact wait_enter_shrinks
  | |- shrinks (cret _) => apply cret_shrinks
  | |- shrinks (craise _) => apply craise_shrinks
  | |- shrinks get_planner => exact get_planner_shrinks
  | |- shrinks (planner_call _) => apply planner_call_shrinks
  | |- shrinks (prompt_priority _) => apply prompt_priority_shrinks
  | |- shrinks (prompt_date _ _) => apply prompt_date_shrinks
  end.

Lemma menu_commands_shrink (date_ok : string -> bool) (now choice : string)
    (date_room prio_room : nat) :
  shrinks (if String.eqb choice "1" then cmd_add date_ok now date_room prio_room
           else if String.eqb choice "2" then cmd_quick_add now
           else if String.eqb choice "3" then cmd_view
           else if String.eqb choice "4" then cmd_view
           else if String.eqb choice "5" then cmd_complete now
           else if String.eqb choice "6" then cmd_edit date_ok date_room
           else if String.eqb choice "7" then cmd_delete
           else if String.eqb choice "8" then cmd_stats
           else if String.eqb choice "9" then cmd_search
           else if String.eqb choice "10" then cmd_export
           else wait_enter).
Proof.
  unfold cmd_add, cmd_quick_add, cmd_view, cmd_complete, cmd_edit, cmd_delete, cmd_stats,
    cmd_search, cmd_export, read_id.
  solve_shrinks.
Qed.

(** Every round of the [main_menu] loop reads at least the choice line,
    so on an input of n lines it ends within n + 1 rounds: either by the
    choice "0", after which the file holds the planner, or by an
    exception that nothing catches: [EOFError] at the end of the input,
    the [ValueError] of [cmd_edit], or the [RecursionError] of a prompt
    asked again up to the recursion limit. *)
Theorem menu_loop_ends (date_ok : string -> bool) (now : string) (date_room prio_room fuel : nat)
    (c : console) :
  (length c.(cins) < fuel)%nat ->
  (fst (menu_loop date_ok now date_room prio_room fuel c) = inl true
   /\ (snd (menu_loop date_ok now date_room prio_room fuel c)).(cworld).(storage)
      = FJson (save_json (snd (menu_loop date_ok now date_room prio_room fuel c)).(cworld).(planner)))
  \/ exists e, fst (menu_loop date_ok now date_room prio_room fuel c) = inr e.
Proof.
  revert c. induction fuel as [|f IH]; intros [w ins] Hlen; simpl in Hlen; [lia|].
  destruct (menu_loop date_ok now date_room prio_room (S f) (mkConsole w ins)) as [res c2] eqn:HM.
  cbn [fst snd]. cbn [menu_loop] in HM. unfold cbind at 1, input at 1 in HM.
  cbn [cins cworld] in HM.
  destruct ins as [|s r]; [injection HM as <- _; right; exists EOFError; reflexivity|].
  cbn [cins cworld length] in *.
  destruct (String.eqb (py_strip s) "0").
  - cbn in HM. injection HM as <- <-. left. split; reflexivity.
  - unfold cbind at 1 in HM.
    pose proof (menu_commands_shrink date_ok now (py_strip s) date_room prio_room (mkConsole w r)) as Hsh.
    match type of HM with context [match ?m (mkConsole w r) with _ => _ end] =>
      destruct (m (mkConsole w r)) as [[u|e] c'] eqn:Hm end.
    + simpl in Hsh. destruct (IH c' ltac:(lia)) as [Hx | Hx]; rewrite HM in Hx; auto.
    + injection HM as <- _. right. exists e. reflexivity.
Qed.

Lemma menu_loop_ends_witness :
  (length (mkConsole fresh_world ["2"; "Read"; ""; "0"]).(cins) < 5)%nat
  /\ fst (menu_loop (fun _ => true) "t0" 996 995 5 (mkConsole fresh_world ["2"; "Read"; ""; "0"]))
     = inl true.
Proof.
  assert (H : (length (mkConsole fresh_world ["2"; "Read"; ""; "0"]).(cins) < 5)%nat)
    by (simpl; lia).
  split; [exact H|].
  destruct (menu_loop_ends (fun _ => true) "t0" 996 995 5 _ H) as [[Hx _] | (e & He)];
    [exact Hx | vm_compute in He; discriminate].
Defined.

(** In every reachable world no id is both pending and completed, every
    id is below [next_id], [xp] is non-negative and [level] is
    [xp // 100 + 1]; the file holds a planner of the same kind. *)
Theorem reachable_planner_invariant (w : World) :
  reachable w ->
  (forall k, In k (dict_keys w.(planner).(tasks)) -> ~ In k (dict_keys w.(planner).(completed)))
  /\ (forall k, In k (dict_keys w.(planner).(tasks) ++ dict_keys w.(planner).(completed)) ->
        k < w.(planner).(next_id))
  /\ 0 <= w.(planner).(xp) /\ w.(planner).(level) = w.(planner).(xp) / 100 + 1
  /\ exists q, w.(storage) = FJson (save_json q) /\ planner_inv q.
Proof.
  intros Hr. destruct (reachable_inv w Hr) as [(Hwf & Hlt & Hx & Hlv) Hq].
  apply planner_wf_In in Hwf as (_ & _ & Hdis). split_and!; auto.
Qed.

Lemma reachable_planner_invariant_witness :
  let w := run fresh_world [OpAdd "t" "a" "G" None 3 ""; OpAdd "t" "b" "G" None 3 "";
                            OpComplete "t" 1; OpDelete 2] in
  reachable w /\ w.(planner).(level) = w.(planner).(xp) / 100 + 1.
Proof.
  intros w. assert (Hr : reachable w) by (apply reachable_run, reachable_fresh).
  split; [exact Hr|]. apply (reachable_planner_invariant w Hr).
Defined.
